(** * Camera selection by reprojection error

    A shallow embedding of [CameraErrorSelector]
    (xrmocap/ops/triangulation/point_selection/camera_error_selector.py)
    and the properties of its two public methods,
    [get_camera_indexes] and [get_selection_mask].

    Conventions of the embedding.
    - A float is an exact rational or NaN ([fval]); infinities and rounding
      are outside the model.
    - An array whose leading axis is the view axis is the list of its
      per-view blocks, each block flattened ([ndarray]); this is the
      array seen through [reshape(n_view, -1)].
    - Arrays are objects: they live in a heap and are named by locations,
      so that [copy] and the in-place assignment
      [points2d_mask[view_index, ...] = 0] keep their meaning.
    - Methods run in a state-and-exception monad over the selector object,
      the heap, the log and the record of calls made to the triangulator. *)

From Stdlib Require Import ZArith QArith Qabs Qreduction Lia.
From stdpp Require Import base list strings pretty sorting.

Local Open Scope string_scope.
Local Open Scope list_scope.
Local Open Scope nat_scope.

(** ** Floats and arrays *)

Inductive fval : Type :=
  | Num (q : Q)
  | NaN.

(** [ndarray]: one flattened row per index of the leading axis. *)
Abbreviation ndarray := (list (list fval)) (only parsing).

(** An ndarray is rectangular: every row has the same number of entries. *)
Definition rect (w : nat) (a : ndarray) : Prop :=
  Forall (fun row => length row = w) a.

Definition shape_of (a : ndarray) : list nat := map length a.

(** ** Exceptions, log and calls *)

Inductive exn : Type :=
  | ValueError
  | IndexError
  | OtherError (what : string).

Inductive result (A : Type) : Type :=
  | Ok (a : A)
  | Raise (e : exn).
Arguments Ok {A} a.
Arguments Raise {A} e.

Inductive log_event : Type :=
  | LogError (msg : string)
  | LogWarning (msg : string)
  | LogInfo (msg : string).

Inductive tri_call : Type :=
  | CallTriangulate
  | CallGetReprojectionError.

(** ** The numpy operations the selector uses *)

Module np.

(** [np.abs], elementwise; NaN stays NaN. *)
Definition abs1 (x : fval) : fval :=
  match x with
  | Num q => Num (Qabs q)
  | NaN => NaN
  end.

Definition abs (a : ndarray) : ndarray := map (map abs1) a.

(** Entries of a row that are numbers, in order. *)
Fixpoint numbers (row : list fval) : list Q :=
  match row with
  | [] => []
  | Num q :: rest => q :: numbers rest
  | NaN :: rest => numbers rest
  end.

Definition Qsum (qs : list Q) : Q := fold_right Qplus 0%Q qs.

(** [np.nanmean] of one row: the NaN entries are left out of both the
    sum and the count; a row without any number has mean NaN. *)
Definition nanmean1 (row : list fval) : fval :=
  match numbers row with
  | [] => NaN
  | qs => Num (Qred (Qsum qs / inject_Z (Z.of_nat (length qs))))
  end.

(** [np.nanmean(a, axis=1, keepdims=False)] on a two-dimensional array. *)
Definition nanmean (a : ndarray) : list fval := map nanmean1 a.

(** The order numpy sorts and partitions floats by:
    [a < b || (b != b && a == a)], which puts NaN after every number. *)
Definition Qltb (x y : Q) : bool := negb (Qle_bool y x).

Definition less (a b : fval) : bool :=
  match a, b with
  | Num x, Num y => Qltb x y
  | Num _, NaN => true
  | NaN, _ => false
  end.

(** [a] does not come after [b]. *)
Definition le (a b : fval) : bool := negb (less b a).

(** [x[:k]] for a Python integer [k]. *)
Definition slice_to {A} (k : Z) (l : list A) : list A :=
  if (0 <=? k)%Z then take (Z.to_nat k) l
  else take (Z.to_nat (Z.of_nat (length l) + k)) l.

(** Flatten and cut into [n] rows of [w] entries. *)
Fixpoint chunks (w n : nat) (flat : list fval) : ndarray :=
  match n with
  | 0 => []
  | S n' => take w flat :: chunks w n' (drop w flat)
  end.

(** [a[idx]] for an integer index array: IndexError when out of range. *)
Fixpoint index (a : list nat) (idx : list nat) : result (list nat) :=
  match idx with
  | [] => Ok []
  | i :: rest =>
      match a !! i, index a rest with
      | Some x, Ok xs => Ok (x :: xs)
      | None, _ => Raise IndexError
      | _, Raise e => Raise e
      end
  end.

Definition zeros_like (row : list fval) : list fval :=
  map (fun _ => Num 0) row.

End np.

Module reshape.

(** [a.reshape(n, -1)]: the number of columns is inferred from the size;
    numpy raises ValueError when [n] is 0 or does not divide the size. *)
Definition views (n : nat) (a : ndarray) : result ndarray :=
  let flat := concat a in
  if n =? 0 then Raise ValueError
  else if length flat mod n =? 0
       then Ok (np.chunks (length flat / n) n flat)
       else Raise ValueError.

End reshape.

(** ** State and exceptions *)

Definition StateErr (S A : Type) : Type := S -> result A * S.

Definition ret {S A} (a : A) : StateErr S A := fun s => (Ok a, s).

Definition raise {S A} (e : exn) : StateErr S A := fun s => (Raise e, s).

Definition bind {S A B} (m : StateErr S A) (k : A -> StateErr S B)
  : StateErr S B :=
  fun s =>
    match m s with
    | (Ok a, s') => k a s'
    | (Raise e, s') => (Raise e, s')
    end.

Definition gets {S A} (f : S -> A) : StateErr S A := fun s => (Ok (f s), s).

Definition of_result {S A} (r : result A) : StateErr S A := fun s => (r, s).

Notation "x <- m ;; k" := (bind m (fun x => k))
  (at level 60, m at next level, right associativity).
Notation "m ;;; k" := (bind m (fun _ => k))
  (at level 60, right associativity).

(** [for x in xs: body(x)] *)
Fixpoint for_each {S A} (xs : list A) (body : A -> StateErr S unit)
  : StateErr S unit :=
  match xs with
  | [] => ret tt
  | x :: rest => body x ;;; for_each rest body
  end.

(** ** Objects *)

Abbreviation loc := nat (only parsing).

(** What a caller may pass for [points] or [init_points_mask]:
    an ndarray object or a nested list. *)
Inductive array_like : Type :=
  | OfArray (l : loc)
  | OfList (rows : list (list fval)).

(** Everything outside the selector object. *)
Record world : Type := World {
  heap : list ndarray;
  log : list log_event;
  calls : list tri_call
}.

(** The triangulator, xrprimer's [BaseTriangulator]: the two methods the
    selector calls. *)
Record BaseTriangulator : Type := {
  triangulate : ndarray -> ndarray -> ndarray;
  get_reprojection_error : ndarray -> ndarray -> ndarray -> ndarray
}.

(** Given a proper (rectangular) mask, the reprojection error has one block
    per view of the mask and is a proper array as well. *)
Definition error_shape_matches (tri : BaseTriangulator) : Prop :=
  forall p p3 m,
    (exists w, rect w m) ->
    length (get_reprojection_error tri p p3 m) = length m /\
    exists w, rect w (get_reprojection_error tri p p3 m).

Definition config : Type := list (string * string).

Inductive triangulator_arg : Type :=
  | TriInstance (t : BaseTriangulator)
  | TriConfig (cfg : config).

(** The attributes of a selector object. *)
Record CameraErrorSelector : Type := {
  verbose : bool;
  target_camera_number : Z;
  triangulator : BaseTriangulator
}.

Record state : Type := State {
  me : CameraErrorSelector;
  env : world
}.

Definition in_env {A} (m : StateErr world A) : StateErr state A :=
  fun s =>
    let '(r, w) := m (env s) in (r, {| me := me s; env := w |}).

(** *** Operations on the world *)

Definition alloc (a : ndarray) : StateErr world loc :=
  fun w =>
    (Ok (length (heap w)),
     {| heap := heap w ++ [a]; log := log w; calls := calls w |}).

Definition read (l : loc) : StateErr world ndarray :=
  fun w =>
    match heap w !! l with
    | Some a => (Ok a, w)
    | None => (Raise (OtherError "no such object"), w)
    end.

Definition write (l : loc) (a : ndarray) : StateErr world unit :=
  fun w =>
    (Ok tt, {| heap := <[l := a]> (heap w); log := log w; calls := calls w |}).

Definition emit (e : log_event) : StateErr world unit :=
  fun w =>
    (Ok tt, {| heap := heap w; log := log w ++ [e]; calls := calls w |}).

Definition called (c : tri_call) : StateErr world unit :=
  fun w =>
    (Ok tt, {| heap := heap w; log := log w; calls := calls w ++ [c] |}).

(** The array an argument denotes. *)
Definition resolve (h : list ndarray) (x : array_like) : ndarray :=
  match x with
  | OfArray l => default [] (h !! l)
  | OfList rows => rows
  end.

(** [len(x)] *)
Definition len (x : array_like) : StateErr world nat :=
  gets (fun w => length (resolve (heap w) x)).

(** ** Collaborators that are not part of this module *)

(** numpy's [argpartition]. The order it leaves equal elements and the two
    sides of the pivot in is not documented; its contract is: the result is
    a permutation of the indices, the element at position [kth] is where a
    sort would put it, nothing before it is greater and nothing after it is
    smaller. *)
Class Numpy : Type := {
  argpartition_order : list fval -> nat -> list nat;
  argpartition_perm : forall a k,
    k < length a -> argpartition_order a k ≡ₚ seq 0 (length a);
  argpartition_pivot : forall a k i j x y,
    k < length a ->
    argpartition_order a k !! i = Some x ->
    argpartition_order a k !! j = Some y ->
    i <= k -> k <= j ->
    np.le (nth x a NaN) (nth y a NaN) = true
}.

(** [xrmocap.utils.triangulation_utils] and the triangulator builder. *)
Class Utils : Type := {
  (** What [prepare_triangulate_input] computes, on the arrays' contents. *)
  normalized : nat -> ndarray -> option ndarray -> result (ndarray * ndarray);
  normalized_shape : forall c p m p' m',
    normalized c p m = Ok (p', m') ->
    length p' = c /\ length m' = c /\ exists w, rect w m';
  (** The function itself returns array objects. It may allocate and log;
      it changes no existing array and does not reach the triangulator. *)
  prepare_triangulate_input :
    nat -> array_like -> option array_like -> StateErr world (loc * loc);
  prepare_spec : forall c p m w r w',
    prepare_triangulate_input c p m w = (r, w') ->
    calls w' = calls w /\
    (exists ext, heap w' = heap w ++ ext) /\
    (exists evs, log w' = log w ++ evs) /\
    match r with
    | Ok (pl, ml) =>
        exists pv mv,
          normalized c (resolve (heap w) p) (resolve (heap w) <$> m)
            = Ok (pv, mv) /\
          heap w' !! pl = Some pv /\ heap w' !! ml = Some mv
    | Raise e =>
        normalized c (resolve (heap w) p) (resolve (heap w) <$> m) = Raise e
    end;
  get_valid_views_stats : ndarray -> list nat * string;
  build_triangulator : config -> result BaseTriangulator
}.

(** ** The selector *)

Section Selector.

Context {NP : Numpy} {UT : Utils}.

(** [np.argpartition(a, kth)]: [kth] must lie in [-n, n). *)
Definition argpartition (a : list fval) (kth : Z) : result (list nat) :=
  let n := Z.of_nat (length a) in
  if ((0 <=? kth) && (kth <? n))%Z
  then Ok (argpartition_order a (Z.to_nat kth))
  else if ((- n <=? kth) && (kth <? 0))%Z
       then Ok (argpartition_order a (Z.to_nat (kth + n)))
       else Raise ValueError.

Definition newline : string := String (Ascii.ascii_of_nat 10) "".

(** [CameraErrorSelector.__init__] *)
Definition init (target_camera_number : Z) (triangulator : triangulator_arg)
    (verbose : bool) : StateErr world CameraErrorSelector :=
  if (target_camera_number >=? 2)%Z then
    tri <- match triangulator with
           | TriConfig cfg => of_result (build_triangulator cfg)
           | TriInstance t => ret t
           end ;;
    ret {| verbose := verbose;
           target_camera_number := target_camera_number;
           triangulator := tri |}
  else
    emit (LogError ("Arg target_camera_number"
                    ++ " must be no fewer than 2." ++ newline
                    ++ "target_camera_number: "
                    ++ pretty target_camera_number)) ;;;
    raise ValueError.

Definition no_potential : string :=
  "There's no potential to search a sub-triangulator"
  ++ " according to n_view.".

(** The mean absolute error of each view: triangulate, reproject, take the
    absolute value, flatten each view and average what is not NaN. *)
Definition mean_errors_of (tri : BaseTriangulator) (n_view : nat)
    (points mask : ndarray) : result (list fval) :=
  let points3d := triangulate tri points mask in
  let error := get_reprojection_error tri points points3d mask in
  let abs_error := np.abs error in
  match reshape.views n_view abs_error with
  | Ok rows => Ok (np.nanmean rows)
  | Raise e => Raise e
  end.

(** [CameraErrorSelector.get_camera_indexes]. The two calls to the
    triangulator are recorded in [calls] where the source makes them. With
    two views the source returns the index array itself and otherwise a
    sorted list; both are lists of indexes here. *)
Definition get_camera_indexes (points : array_like)
    (init_points_mask : option array_like) : StateErr state (list nat) :=
  camera_number <- in_env (len points) ;;
  prepared <- in_env (prepare_triangulate_input camera_number points
                        init_points_mask) ;;
  let '(points, init_points_mask) := prepared in
  mask <- in_env (read init_points_mask) ;;
  let n_view := length mask in
  let remain_cameras := seq 0 n_view in
  if n_view =? 2 then
    in_env (emit (LogWarning no_potential)) ;;;
    ret remain_cameras
  else
    tri <- gets (fun s => triangulator (me s)) ;;
    pts <- in_env (read points) ;;
    in_env (called CallTriangulate) ;;;
    in_env (called CallGetReprojectionError) ;;;
    mean_errors <- of_result (mean_errors_of tri n_view pts mask) ;;
    k <- gets (fun s => target_camera_number (me s)) ;;
    order <- of_result (argpartition mean_errors k) ;;
    let min_error_indexes := np.slice_to k order in
    picked <- of_result (np.index remain_cameras min_error_indexes) ;;
    ret (merge_sort le picked).

(** [a.copy()] *)
Definition copy (l : loc) : StateErr world loc :=
  a <- read l ;; alloc a.

(** [a[view_index, ...] = 0] *)
Definition assign_view_zero (l : loc) (view_index : nat)
  : StateErr world unit :=
  a <- read l ;;
  match a !! view_index with
  | Some row => write l (<[view_index := np.zeros_like row]> a)
  | None => raise IndexError
  end.

(** [CameraErrorSelector.get_selection_mask]. The final reshape gives the
    copy the shape it already has: the result is the copy. *)
Definition get_selection_mask (points : array_like)
    (init_points_mask : option array_like) : StateErr state loc :=
  camera_number <- in_env (len points) ;;
  prepared <- in_env (prepare_triangulate_input camera_number points
                        init_points_mask) ;;
  let '(points, init_points_mask) := prepared in
  selected_cameras <- get_camera_indexes (OfArray points)
                        (Some (OfArray init_points_mask)) ;;
  points2d_mask <- in_env (copy init_points_mask) ;;
  shape0 <- in_env (len (OfArray points2d_mask)) ;;
  in_env (for_each (seq 0 shape0) (fun view_index =>
    if bool_decide (view_index ∈ selected_cameras) then ret tt
    else assign_view_zero points2d_mask view_index)) ;;;
  n_view <- in_env (len (OfArray points2d_mask)) ;;
  v <- gets (fun s => verbose (me s)) ;;
  (if v then
     final <- in_env (read points2d_mask) ;;
     stats_input <- of_result (reshape.views n_view final) ;;
     in_env (emit (LogInfo (snd (get_valid_views_stats stats_input))))
   else ret tt) ;;;
  ret points2d_mask.

(** *** What the two methods compute, as functions of the arrays' contents

    These restate the method bodies without the state; the theorems below
    show that the methods return exactly these values. *)

(** The [else] branch of [get_camera_indexes], from the triangulation on. *)
Definition selection (tri : BaseTriangulator) (k : Z) (points mask : ndarray)
  : result (list nat) :=
  match mean_errors_of tri (length mask) points mask with
  | Raise e => Raise e
  | Ok mean_errors =>
      match argpartition mean_errors k with
      | Raise e => Raise e
      | Ok order =>
          match np.index (seq 0 (length mask)) (np.slice_to k order) with
          | Raise e => Raise e
          | Ok picked => Ok (merge_sort le picked)
          end
      end
  end.

Definition indexes_of (self : CameraErrorSelector) (points : ndarray)
    (mask : option ndarray) : result (list nat) :=
  match normalized (length points) points mask with
  | Raise e => Raise e
  | Ok (pv, mv) =>
      if length mv =? 2 then Ok (seq 0 (length mv))
      else selection (triangulator self) (target_camera_number self) pv mv
  end.

(** The mask after the loop over the views. *)
Definition zero_rejected (selected : list nat) (mask : ndarray) : ndarray :=
  imap (fun view_index row =>
          if bool_decide (view_index ∈ selected) then row
          else np.zeros_like row) mask.

Definition mask_of (self : CameraErrorSelector) (points : ndarray)
    (mask : option ndarray) : result ndarray :=
  match normalized (length points) points mask with
  | Raise e => Raise e
  | Ok (pv, mv) =>
      match indexes_of self pv (Some mv) with
      | Raise e => Raise e
      | Ok selected =>
          let final := zero_rejected selected mv in
          if verbose self then
            match reshape.views (length final) final with
            | Raise e => Raise e
            | Ok _ => Ok final
            end
          else Ok final
      end
  end.

End Selector.

(** ** A concrete world to run the selector in

    A full stable sort is one of the orders [argpartition] may return; the
    toy triangulator works on one scalar coordinate per point, takes the
    3D point to be the mean of its valid observations and the error to be
    the signed distance to it. *)

Module toy.

Definition by_value (a : list fval) (i j : nat) : Prop :=
  np.le (nth i a NaN) (nth j a NaN) = true.

#[export] Instance by_value_dec a : RelDecision (by_value a).
Proof. intros i j. unfold by_value. apply _. Defined.

Definition argsort (a : list fval) (kth : nat) : list nat :=
  merge_sort (by_value a) (seq 0 (length a)).

Definition column (a : ndarray) (k : nat) : list fval :=
  map (fun row => nth k row NaN) a.

Definition used (x mk : fval) : fval :=
  match mk with
  | Num q => if Qeq_bool q 1 then x else NaN
  | NaN => NaN
  end.

Definition sub (x y : fval) : fval :=
  match x, y with
  | Num a, Num b => Num (Qred (a - b))
  | _, _ => NaN
  end.

Definition mean_point (p m : ndarray) : ndarray :=
  [ map (fun k => np.nanmean1 (zip_with used (column p k) (column m k)))
        (seq 0 (length (hd [] m))) ].

Definition signed_error (p p3 m : ndarray) : ndarray :=
  imap (fun v mrow =>
    imap (fun k mk =>
      match mk with
      | NaN => NaN
      | Num _ => sub (nth k (nth v p []) NaN) (nth k (hd [] p3) NaN)
      end) mrow) m.

Definition triangulator : BaseTriangulator :=
  {| triangulate := mean_point; get_reprojection_error := signed_error |}.

Definition is_rect (a : ndarray) : bool :=
  forallb (fun row => length row =? length (hd [] a)) a.

Definition normalized (c : nat) (p : ndarray) (m : option ndarray)
  : result (ndarray * ndarray) :=
  if negb (length p =? c) then Raise ValueError
  else match m with
       | None =>
           if is_rect p then Ok (p, map (map (fun _ => Num 1)) p)
           else Raise ValueError
       | Some mv =>
           if (length mv =? c) && is_rect mv then Ok (p, mv)
           else Raise ValueError
       end.

(** An ndarray argument is returned as it is, a nested list is converted
    to a new array. [h0] is the heap the arguments were read in. *)
Definition as_array (h0 : list ndarray) (x : option array_like) (v : ndarray)
  : StateErr world loc :=
  fun w =>
    match x with
    | Some (OfArray l) =>
        if decide (l < length h0) then (Ok l, w) else alloc v w
    | _ => alloc v w
    end.

Definition prepare (c : nat) (p : array_like) (m : option array_like)
  : StateErr world (loc * loc) :=
  fun w =>
    match normalized c (resolve (heap w) p) (resolve (heap w) <$> m) with
    | Raise e => (emit (LogError "Wrong shape of triangulation input.") ;;;
                  raise e) w
    | Ok (pv, mv) =>
        (pl <- as_array (heap w) (Some p) pv ;;
         ml <- as_array (heap w) m mv ;;
         ret (pl, ml)) w
    end.

Definition stats (a : ndarray) : list nat * string :=
  let valid x := match x with Num q => Qeq_bool q 1 | NaN => false end in
  let counts := map (fun row => length (List.filter valid row)) a in
  (counts, ("views: " ++ pretty (length a))%string).

Definition build (cfg : config) : result BaseTriangulator :=
  match cfg with
  | [] => Raise (OtherError "no triangulator type")
  | _ => Ok triangulator
  end.

End toy.

(** * Properties *)

(** ** The order of floats *)

Lemma le_num x y : np.le (Num x) (Num y) = Qle_bool x y.
Proof. unfold np.le, np.less, np.Qltb. apply negb_involutive. Qed.

Lemma le_nan_r a : np.le a NaN = true.
Proof. by destruct a. Qed.

Lemma le_refl a : np.le a a = true.
Proof.
  destruct a as [x|]; [|done].
  rewrite le_num. apply Qle_bool_iff, Qle_refl.
Qed.

Lemma le_total a b : np.le a b = true \/ np.le b a = true.
Proof.
  destruct a as [x|], b as [y|]; rewrite ?le_nan_r; auto.
  rewrite !le_num, !Qle_bool_iff.
  destruct (Qlt_le_dec x y) as [Hlt|Hle]; [left; by apply Qlt_le_weak|by right].
Qed.

Lemma le_trans a b c :
  np.le a b = true -> np.le b c = true -> np.le a c = true.
Proof.
  destruct a as [x|], b as [y|], c as [z|]; rewrite ?le_nan_r; try done.
  rewrite !le_num, !Qle_bool_iff. apply Qle_trans.
Qed.


(** ** Lists of indices *)

Lemma StronglySorted_lookup {A} (R : relation A) (l : list A) i j x y :
  StronglySorted R l -> l !! i = Some x -> l !! j = Some y -> i < j -> R x y.
Proof.
  intros Hs. revert i j. induction Hs as [|a l Hs IH Hall]; intros i j Hi Hj Hlt.
  - by rewrite lookup_nil in Hi.
  - destruct j as [|j]; [lia|]. destruct i as [|i]; simpl in *.
    + inversion Hi; subst. rewrite Forall_forall in Hall.
      apply Hall. eapply list_elem_of_lookup_2; eauto.
    + eapply IH; eauto. lia.
Qed.

Lemma index_seq n idx :
  Forall (fun i => i < n) idx -> np.index (seq 0 n) idx = Ok idx.
Proof.
  induction 1 as [|i idx Hi _ IH]; [done|]. simpl.
  by rewrite (lookup_seq_lt 0 n i Hi), IH.
Qed.

(** ** Rectangular arrays and reshape *)

Lemma length_concat_rect w (a : ndarray) :
  rect w a -> length (concat a) = length a * w.
Proof.
  induction 1 as [|row a Hrow _ IH]; [done|].
  simpl. rewrite length_app, IH, Hrow. lia.
Qed.

Lemma chunks_concat w (a : ndarray) :
  rect w a -> np.chunks w (length a) (concat a) = a.
Proof.
  induction 1 as [|row a Hrow _ IH]; [done|]. simpl.
  rewrite take_app_length', drop_app_length' by done. by rewrite IH.
Qed.

Lemma reshape_views_rect w (a : ndarray) :
  rect w a -> length a <> 0 -> reshape.views (length a) a = Ok a.
Proof.
  intros Hr Hn. unfold reshape.views.
  destruct (Nat.eqb_spec (length a) 0) as [|_]; [done|].
  rewrite (length_concat_rect w a Hr), (Nat.mul_comm (length a) w).
  rewrite Nat.Div0.mod_mul, Nat.div_mul by done. simpl.
  by rewrite chunks_concat.
Qed.

Lemma reshape_views_length n (a b : ndarray) :
  reshape.views n a = Ok b -> length b = n /\ n <> 0.
Proof.
  unfold reshape.views. destruct (Nat.eqb_spec n 0) as [|Hn]; [done|].
  destruct (_ =? 0); [|done]. intros [= <-]. split; [|done].
  generalize (length (concat a) / n). generalize (concat a). clear.
  induction n as [|n IH]; intros l w; simpl; [done|]. by rewrite IH.
Qed.

Lemma rect_abs w (a : ndarray) : rect w a -> rect w (np.abs a).
Proof.
  unfold rect, np.abs. intros H. apply Forall_fmap.
  eapply Forall_impl; [exact H|]. intros row Hrow. simpl.
  by rewrite length_map.
Qed.

Lemma length_abs (a : ndarray) : length (np.abs a) = length a.
Proof. apply length_map. Qed.

Lemma rect_zero_rejected w sel (a : ndarray) :
  rect w a -> rect w (zero_rejected sel a).
Proof.
  unfold rect, zero_rejected. rewrite !Forall_lookup. intros H i row.
  rewrite list_lookup_imap. destruct (a !! i) as [r|] eqn:Hr; [|done].
  simpl. intros [= <-]. specialize (H i r Hr).
  case_bool_decide; [done|]. unfold np.zeros_like. by rewrite length_map.
Qed.

Lemma length_zero_rejected sel (a : ndarray) :
  length (zero_rejected sel a) = length a.
Proof. apply length_imap. Qed.

(** ** Sorting a list of indices *)

Lemma sorted_indices_perm (l : list nat) : merge_sort le l ≡ₚ l.
Proof. apply merge_sort_Permutation. Qed.

Lemma sorted_indices_ascending (l : list nat) :
  NoDup l -> StronglySorted lt (merge_sort le l).
Proof.
  intros Hnd.
  assert (Hs : StronglySorted le (merge_sort le l))
    by apply (StronglySorted_merge_sort le).
  assert (Hnd' : NoDup (merge_sort le l)) by by rewrite sorted_indices_perm.
  induction Hs as [|x l' Hs IH Hall]; [constructor|].
  apply NoDup_cons in Hnd' as [Hx Hnd']. constructor; [by apply IH|].
  rewrite Forall_forall in Hall |- *. intros y Hy.
  specialize (Hall y Hy). assert (x <> y) by (intros ->; done). lia.
Qed.

Section SelectorFacts.

Context {NP : Numpy} {UT : Utils}.

(** ** The partition step *)

Lemma argpartition_in_range (a : list fval) (k : Z) :
  (0 <= k < Z.of_nat (length a))%Z ->
  argpartition a k = Ok (argpartition_order a (Z.to_nat k)).
Proof.
  intros [H0 H1]. unfold argpartition.
  by rewrite (proj2 (Z.leb_le _ _) H0), (proj2 (Z.ltb_lt _ _) H1).
Qed.

Lemma argpartition_out_of_bounds (a : list fval) (k : Z) :
  (Z.of_nat (length a) <= k)%Z -> (0 <= k)%Z ->
  argpartition a k = Raise ValueError.
Proof.
  intros H1 H0. unfold argpartition.
  rewrite (proj2 (Z.ltb_ge _ _) H1), andb_false_r.
  assert ((k <? 0)%Z = false) as -> by by apply Z.ltb_ge.
  by rewrite andb_false_r.
Qed.

Lemma slice_to_nonneg {A} (k : Z) (l : list A) :
  (0 <= k)%Z -> np.slice_to k l = take (Z.to_nat k) l.
Proof. intros H. unfold np.slice_to. by rewrite (proj2 (Z.leb_le _ _) H). Qed.

Section TopK.

Variables (a : list fval) (k : nat).
Hypothesis Hk : k < length a.

Let order := argpartition_order a k.
Let chosen := take k order.

Lemma order_length : length order = length a.
Proof.
  unfold order. rewrite (Permutation_length (argpartition_perm a k Hk)).
  apply length_seq.
Qed.

Lemma order_NoDup : NoDup order.
Proof.
  unfold order. rewrite (argpartition_perm a k Hk). apply NoDup_seq.
Qed.

Lemma order_elem v : v ∈ order <-> v < length a.
Proof.
  unfold order. rewrite (argpartition_perm a k Hk), elem_of_seq. lia.
Qed.

Lemma chosen_length : length chosen = k.
Proof. unfold chosen. rewrite length_take, order_length. lia. Qed.

Lemma chosen_NoDup : NoDup chosen.
Proof.
  unfold chosen. eapply sublist_NoDup; [apply order_NoDup|apply sublist_take].
Qed.

Lemma chosen_in_range : Forall (fun v => v < length a) chosen.
Proof.
  apply Forall_forall. intros v Hv. apply order_elem.
  unfold chosen in Hv. apply elem_of_take in Hv as (i & Hi & _).
  eapply list_elem_of_lookup_2; eauto.
Qed.

(** No chosen view has a larger value than a view that was left out. *)
Lemma chosen_smallest i j :
  i ∈ chosen -> j < length a -> j ∉ chosen ->
  np.le (nth i a NaN) (nth j a NaN) = true.
Proof.
  intros Hi Hj Hnj. unfold chosen in *.
  apply elem_of_take in Hi as (pi & Hpi & Hlt).
  apply order_elem in Hj. apply list_elem_of_lookup_1 in Hj as [pj Hpj].
  assert (k <= pj).
  { destruct (decide (pj < k)) as [Hlt'|]; [|lia].
    destruct Hnj. apply elem_of_take. eauto. }
  eapply (argpartition_pivot a k pi pj); eauto. lia.
Qed.

End TopK.

(** ** The mean errors and the selection *)

Lemma mean_errors_of_ok tri (pv mv : ndarray) :
  error_shape_matches tri -> (exists wd, rect wd mv) -> length mv <> 0 ->
  mean_errors_of tri (length mv) pv mv
  = Ok (np.nanmean
          (np.abs (get_reprojection_error tri pv (triangulate tri pv mv) mv))).
Proof.
  intros Hshape Hmv Hn. unfold mean_errors_of.
  destruct (Hshape pv (triangulate tri pv mv) mv Hmv) as [Hlen [w Hrect]].
  rewrite <- Hlen, <- length_abs.
  rewrite (reshape_views_rect w); [done|by apply rect_abs|].
  by rewrite length_abs, Hlen.
Qed.

Lemma mean_errors_of_length tri n (pv mv : ndarray) errs :
  mean_errors_of tri n pv mv = Ok errs -> length errs = n /\ n <> 0.
Proof.
  unfold mean_errors_of.
  destruct (reshape.views n _) as [rows|e] eqn:Hrows; [|done].
  intros [= <-]. apply reshape_views_length in Hrows as [Hlen Hn].
  split; [|done]. unfold np.nanmean. by rewrite length_map.
Qed.

Lemma selection_ok tri (k : Z) (pv mv : ndarray) errs :
  mean_errors_of tri (length mv) pv mv = Ok errs ->
  (0 <= k < Z.of_nat (length mv))%Z ->
  selection tri k pv mv
  = Ok (merge_sort le (take (Z.to_nat k)
                         (argpartition_order errs (Z.to_nat k)))).
Proof.
  intros Herrs Hk. unfold selection. rewrite Herrs.
  apply mean_errors_of_length in Herrs as [Hlen _].
  rewrite argpartition_in_range by (rewrite Hlen; lia).
  rewrite slice_to_nonneg by lia.
  rewrite index_seq; [done|].
  rewrite <- Hlen. apply chosen_in_range. lia.
Qed.

Lemma selection_out_of_bounds tri (k : Z) (pv mv : ndarray) errs :
  mean_errors_of tri (length mv) pv mv = Ok errs ->
  (Z.of_nat (length mv) <= k)%Z ->
  selection tri k pv mv = Raise ValueError.
Proof.
  intros Herrs Hk. unfold selection. rewrite Herrs.
  apply mean_errors_of_length in Herrs as [Hlen _].
  rewrite argpartition_out_of_bounds; [done|rewrite Hlen; lia|lia].
Qed.

Lemma selection_Ok_nonempty tri (k : Z) (pv mv : ndarray) sel :
  selection tri k pv mv = Ok sel -> length mv <> 0.
Proof.
  unfold selection.
  destruct (mean_errors_of _ _ _ _) as [errs|] eqn:Herrs; [|done].
  intros _. by apply mean_errors_of_length in Herrs as [_ ?].
Qed.

(** ** What a call of [get_camera_indexes] does *)

Definition warned (w : world) : world :=
  {| heap := heap w; log := log w ++ [LogWarning no_potential];
     calls := calls w |}.

Definition triangulated (w : world) : world :=
  {| heap := heap w; log := log w;
     calls := calls w ++ [CallTriangulate; CallGetReprojectionError] |}.

Lemma get_camera_indexes_unfold points mask s :
  let h := heap (env s) in
  let c := length (resolve h points) in
  exists r1 w1,
    prepare_triangulate_input c points mask (env s) = (r1, w1) /\
    match r1 with
    | Raise e =>
        normalized c (resolve h points) (resolve h <$> mask) = Raise e /\
        get_camera_indexes points mask s = (Raise e, State (me s) w1)
    | Ok (pl, ml) =>
        exists pv mv,
          normalized c (resolve h points) (resolve h <$> mask) = Ok (pv, mv) /\
          heap w1 !! pl = Some pv /\ heap w1 !! ml = Some mv /\
          get_camera_indexes points mask s =
            if length mv =? 2
            then (Ok (seq 0 (length mv)), State (me s) (warned w1))
            else (selection (triangulator (me s))
                    (target_camera_number (me s)) pv mv,
                  State (me s) (triangulated w1))
    end.
Proof.
  intros h c.
  destruct (prepare_triangulate_input c points mask (env s)) as [r1 w1] eqn:Hp.
  exists r1, w1. split; [done|].
  pose proof (prepare_spec _ _ _ _ _ _ Hp) as (_ & _ & _ & Hr).
  unfold get_camera_indexes, bind, in_env, len, gets. simpl.
  fold h. fold c. rewrite Hp.
  destruct r1 as [[pl ml]|e]; [|done].
  destruct Hr as (pv & mv & Hnorm & Hpl & Hml).
  exists pv, mv. repeat split; try done.
  unfold read. simpl. rewrite Hml. simpl.
  destruct (length mv =? 2); [done|]. simpl. rewrite Hpl. simpl.
  unfold of_result, selection, triangulated. simpl. rewrite <- app_assoc. simpl.
  destruct (mean_errors_of _ _ _ _) as [errs|e]; [|done].
  destruct (argpartition _ _) as [order|e]; [|done].
  destruct (np.index _ _) as [picked|e]; done.
Qed.

(** The number of views found by the method, when the input was accepted. *)
Lemma prepared_views c points mask w pl ml w1 :
  prepare_triangulate_input c points mask w = (Ok (pl, ml), w1) ->
  exists pv mv,
    heap w1 !! pl = Some pv /\ heap w1 !! ml = Some mv /\
    length pv = c /\ length mv = c /\ (exists wd, rect wd mv) /\
    normalized c (resolve (heap w) points) (resolve (heap w) <$> mask)
      = Ok (pv, mv).
Proof.
  intros Hp.
  pose proof (prepare_spec _ _ _ _ _ _ Hp) as (_ & _ & _ & pv & mv & Hn & Hpl & Hml).
  exists pv, mv.
  destruct (normalized_shape _ _ _ _ _ Hn) as (? & ? & ?). by repeat split.
Qed.

Lemma get_camera_indexes_prepared points mask s pl ml w1 :
  prepare_triangulate_input (length (resolve (heap (env s)) points))
    points mask (env s) = (Ok (pl, ml), w1) ->
  exists pv mv,
    heap w1 !! pl = Some pv /\ heap w1 !! ml = Some mv /\
    length mv = length (resolve (heap (env s)) points) /\
    (exists wd, rect wd mv) /\
    get_camera_indexes points mask s =
      if length mv =? 2
      then (Ok (seq 0 (length mv)), State (me s) (warned w1))
      else (selection (triangulator (me s))
              (target_camera_number (me s)) pv mv,
            State (me s) (triangulated w1)).
Proof.
  intros Hp.
  destruct (get_camera_indexes_unfold points mask s) as (r1 & w1' & Hp' & Hr).
  simpl in Hp'. rewrite Hp in Hp'. injection Hp' as <- <-.
  destruct Hr as (pv & mv & Hn & Hpl & Hml & Hrun).
  exists pv, mv.
  destruct (normalized_shape _ _ _ _ _ Hn) as (_ & ? & ?).
  by repeat split.
Qed.

(** ** Claims about [get_camera_indexes] *)


(** C5. With exactly two views [get_camera_indexes] returns [0, 1]
    whatever the points and the target are; it logs one warning, raises
    nothing and makes no call to the triangulator. *)
Theorem two_views_are_kept points mask s prepared w1 :
  prepare_triangulate_input 2 points mask (env s) = (Ok prepared, w1) ->
  length (resolve (heap (env s)) points) = 2 ->
  let out := get_camera_indexes points mask s in
  fst out = Ok [0; 1] /\
  log (env (snd out)) = log w1 ++ [LogWarning no_potential] /\
  calls (env (snd out)) = calls (env s).
Proof.
  intros Hp Hlen out. destruct prepared as [pl ml].
  pose proof (prepare_spec _ _ _ _ _ _ Hp) as (Hcalls & _).
  rewrite <- Hlen in Hp.
  destruct (get_camera_indexes_prepared _ _ _ _ _ _ Hp)
    as (pv & mv & _ & _ & Hmv & _ & Hrun).
  subst out. rewrite Hrun, Hmv, Hlen. simpl. by rewrite Hcalls.
Qed.


(** C10. With more than two views and a target equal to the number of
    views, the mean errors are computed and the partition step raises:
    [kth] equals the length of the array. [get_camera_indexes] raises
    ValueError instead of returning every view. *)
Theorem target_equal_to_n_view_raises points mask s pl ml w1 :
  let n_view := length (resolve (heap (env s)) points) in
  let tri := triangulator (me s) in
  error_shape_matches tri ->
  prepare_triangulate_input n_view points mask (env s) = (Ok (pl, ml), w1) ->
  2 < n_view ->
  target_camera_number (me s) = Z.of_nat n_view ->
  exists pv mv errs,
    heap w1 !! pl = Some pv /\ heap w1 !! ml = Some mv /\
    mean_errors_of tri n_view pv mv = Ok errs /\
    length errs = n_view /\
    argpartition errs (target_camera_number (me s)) = Raise ValueError /\
    fst (get_camera_indexes points mask s) = Raise ValueError.
Proof.
  intros n_view tri Hshape Hp Hn Hk.
  destruct (get_camera_indexes_prepared _ _ _ _ _ _ Hp)
    as (pv & mv & Hpl & Hml & Hlen & Hrect & Hrun).
  fold n_view in Hlen. fold tri in Hrun.
  assert (Herrs := mean_errors_of_ok tri pv mv Hshape Hrect ltac:(lia)).
  exists pv, mv, (np.nanmean (np.abs (get_reprojection_error tri pv
                                        (triangulate tri pv mv) mv))).
  rewrite Hlen in Herrs.
  pose proof (mean_errors_of_length _ _ _ _ _ Herrs) as [Hlerrs _].
  repeat split; try done.
  - apply argpartition_out_of_bounds; lia.
  - rewrite Hrun. destruct (Nat.eqb_spec (length mv) 2) as [|_]; [lia|].
    simpl. rewrite <- Hlen in Herrs.
    apply (selection_out_of_bounds _ _ _ _ _ Herrs). lia.
Qed.

(** ** The loop of [get_selection_mask] *)

(** One turn of the loop, on the contents of the copied mask. *)
Definition zero_view (selected : list nat) (a : ndarray) (view_index : nat)
  : ndarray :=
  if bool_decide (view_index ∈ selected) then a
  else match a !! view_index with
       | Some row => <[view_index := np.zeros_like row]> a
       | None => a
       end.

Lemma world_eta w : World (heap w) (log w) (calls w) = w.
Proof. by destruct w. Qed.

Lemma zero_loop_run sel l vs :
  forall (a : ndarray) w,
    heap w !! l = Some a ->
    Forall (fun v => v < length a) vs ->
    for_each vs (fun view_index =>
      if bool_decide (view_index ∈ sel) then ret tt
      else assign_view_zero l view_index) w
    = (Ok tt, World (<[l := foldl (zero_view sel) a vs]> (heap w))
                (log w) (calls w)).
Proof.
  induction vs as [|v vs IH]; intros a w Hl Hvs; simpl.
  - unfold ret. by rewrite list_insert_id, world_eta.
  - apply Forall_cons in Hvs as [Hv Hvs]. unfold bind, zero_view.
    case_bool_decide.
    + simpl. by apply IH.
    + unfold assign_view_zero, bind, read, write. rewrite Hl.
      destruct (lookup_lt_is_Some_2 a v Hv) as [row Hrow]. rewrite Hrow.
      rewrite (IH (<[v := np.zeros_like row]> a)); simpl.
      * by rewrite list_insert_insert_eq.
      * apply list_lookup_insert_eq. by eapply lookup_lt_Some.
      * by rewrite length_insert.
Qed.

(** A view is not touched before its turn. *)
Lemma zero_view_later sel (a : ndarray) n m :
  m <= n -> foldl (zero_view sel) a (seq 0 m) !! n = a !! n.
Proof.
  induction m as [|m IHm]; intros Hm; [done|].
  rewrite seq_S, foldl_app. simpl. unfold zero_view at 1.
  case_bool_decide; [apply IHm; lia|].
  destruct (_ !! m) as [row|]; [|apply IHm; lia].
  rewrite list_lookup_insert_ne by lia. apply IHm. lia.
Qed.

Lemma zero_view_prefix sel (a : ndarray) n j :
  n <= length a ->
  foldl (zero_view sel) a (seq 0 n) !! j
  = if decide (j < n)
    then (fun row => if bool_decide (j ∈ sel) then row
                     else np.zeros_like row) <$> a !! j
    else a !! j.
Proof.
  induction n as [|n IH]; intros Hn.
  - simpl. by destruct (decide (j < 0)); [lia|].
  - rewrite seq_S, foldl_app. simpl.
    specialize (IH ltac:(lia)).
    set (b := foldl (zero_view sel) a (seq 0 n)) in *.
    assert (Hbn : b !! n = a !! n) by by apply zero_view_later.
    unfold zero_view.
    destruct (decide (n ∈ sel)) as [Hsel|Hsel];
      [rewrite (bool_decide_true _ Hsel)|rewrite (bool_decide_false _ Hsel)].
    + rewrite IH. destruct (decide (j < n)), (decide (j < S n)); try lia; try done.
      assert (j = n) as -> by lia. destruct (a !! n); [|done]. simpl.
      by rewrite bool_decide_true.
    + destruct (lookup_lt_is_Some_2 a n ltac:(lia)) as [row Hrow].
      rewrite Hbn, Hrow.
      destruct (decide (j = n)) as [->|Hne].
      * rewrite list_lookup_insert_eq.
        2: { apply lookup_lt_is_Some. rewrite Hbn. eauto. }
        destruct (decide (n < S n)); [|lia]. rewrite Hrow. simpl.
        by rewrite bool_decide_false.
      * rewrite list_lookup_insert_ne by done. rewrite IH.
        destruct (decide (j < n)), (decide (j < S n)); try lia; done.
Qed.

Lemma zero_loop_result sel (a : ndarray) :
  foldl (zero_view sel) a (seq 0 (length a)) = zero_rejected sel a.
Proof.
  apply list_eq. intros j. rewrite zero_view_prefix by done.
  unfold zero_rejected. rewrite list_lookup_imap.
  destruct (decide (j < length a)) as [|Hge]; [done|].
  rewrite lookup_ge_None_2 by lia. done.
Qed.

(** ** What a call of [get_camera_indexes] leaves behind *)

Lemma get_camera_indexes_frame points mask s :
  let out := get_camera_indexes points mask s in
  me (snd out) = me s /\
  (exists ext, heap (env (snd out)) = heap (env s) ++ ext) /\
  (exists evs, log (env (snd out)) = log (env s) ++ evs).
Proof.
  intros out.
  destruct (get_camera_indexes_unfold points mask s) as (r1 & w1 & Hp & Hr).
  simpl in Hp.
  pose proof (prepare_spec _ _ _ _ _ _ Hp) as (_ & Hheap & [evs Hlog] & _).
  subst out. destruct r1 as [[pl ml]|e].
  - destruct Hr as (pv & mv & _ & _ & _ & ->).
    destruct (length mv =? 2); simpl; repeat split; try done.
    + exists (evs ++ [LogWarning no_potential]).
      by rewrite Hlog, <- app_assoc.
    + by exists evs.
  - destruct Hr as [_ ->]. simpl. repeat split; try done. by exists evs.
Qed.

Lemma get_camera_indexes_value points mask s :
  fst (get_camera_indexes points mask s)
  = indexes_of (me s) (resolve (heap (env s)) points)
      (resolve (heap (env s)) <$> mask).
Proof.
  destruct (get_camera_indexes_unfold points mask s) as (r1 & w1 & _ & Hr).
  simpl in Hr. unfold indexes_of. destruct r1 as [[pl ml]|e].
  - destruct Hr as (pv & mv & -> & _ & _ & ->).
    by destruct (length mv =? 2).
  - by destruct Hr as [-> ->].
Qed.

Lemma indexes_of_Ok_views self (p : ndarray) m sel :
  indexes_of self p m = Ok sel -> length p <> 0.
Proof.
  unfold indexes_of.
  destruct (normalized _ _ _) as [[pv mv]|e] eqn:Hn; [|done].
  destruct (normalized_shape _ _ _ _ _ Hn) as (_ & Hmv & _).
  destruct (Nat.eqb_spec (length mv) 2) as [H2|_]; [lia|].
  intros Hsel%selection_Ok_nonempty. lia.
Qed.

(** ** What a call of [get_selection_mask] does *)

(** The world after the loop: the copy is the last object allocated. *)
Definition masked (self : CameraErrorSelector) (w : world) (final : ndarray)
  : world :=
  {| heap := heap w ++ [final];
     log := log w ++ (if verbose self
                      then [LogInfo (snd (get_valid_views_stats final))]
                      else []);
     calls := calls w |}.

Lemma get_selection_mask_unfold points mask s :
  let h := heap (env s) in
  let c := length (resolve h points) in
  exists r1 w1,
    prepare_triangulate_input c points mask (env s) = (r1, w1) /\
    match r1 with
    | Raise e => get_selection_mask points mask s = (Raise e, State (me s) w1)
    | Ok (pl, ml) =>
        exists pv mv,
          heap w1 !! pl = Some pv /\ heap w1 !! ml = Some mv /\
          let inner := get_camera_indexes (OfArray pl) (Some (OfArray ml))
                         (State (me s) w1) in
          match fst inner with
          | Raise e => get_selection_mask points mask s = (Raise e, snd inner)
          | Ok sel =>
              get_selection_mask points mask s
              = (Ok (length (heap (env (snd inner)))),
                 State (me s)
                   (masked (me s) (env (snd inner)) (zero_rejected sel mv)))
          end
    end.
Proof.
  intros h c.
  destruct (prepare_triangulate_input c points mask (env s)) as [r1 w1] eqn:Hp.
  exists r1, w1. split; [done|].
  unfold get_selection_mask, bind, in_env, len, gets. simpl.
  fold h. fold c. rewrite Hp.
  destruct r1 as [[pl ml]|e]; [|done].
  destruct (prepared_views _ _ _ _ _ _ _ Hp)
    as (pv & mv & Hpl & Hml & Hlpv & Hlmv & [wd Hrect] & _).
  exists pv, mv. split; [done|]. split; [done|]. simpl.
  pose proof (get_camera_indexes_frame (OfArray pl) (Some (OfArray ml))
                (State (me s) w1)) as (Hme & [ext Hheap] & _).
  pose proof (get_camera_indexes_value (OfArray pl) (Some (OfArray ml))
                (State (me s) w1)) as Hval.
  destruct (get_camera_indexes _ _ _) as [rsel s3]. simpl in *.
  destruct rsel as [sel|e]; [|done].
  rewrite Hpl, Hml in Hval. simpl in Hval. symmetry in Hval.
  apply indexes_of_Ok_views in Hval.
  assert (Hml3 : heap (env s3) !! ml = Some mv).
  { rewrite Hheap. by apply lookup_app_l_Some. }
  unfold copy, bind, read, alloc. rewrite Hml3. simpl.
  rewrite list_lookup_middle by done. simpl.
  rewrite (zero_loop_run sel (length (heap (env s3))) _ mv); simpl.
  2: { by apply list_lookup_middle. }
  2: { apply Forall_forall. intros v Hv. apply elem_of_seq in Hv. lia. }
  rewrite zero_loop_result.
  rewrite insert_app_r_alt by done. rewrite Nat.sub_diag. simpl.
  rewrite list_lookup_middle by done. simpl. rewrite Hme.
  unfold masked. destruct (verbose (me s)); simpl.
  - rewrite list_lookup_middle by done. simpl.
    rewrite (reshape_views_rect wd).
    + done.
    + by apply rect_zero_rejected.
    + rewrite length_zero_rejected. lia.
  - by rewrite app_nil_r.
Qed.

(** The array a result names, or the exception. *)
Definition content_of (out : result nat * state) : result ndarray :=
  match fst out with
  | Ok l =>
      match heap (env (snd out)) !! l with
      | Some a => Ok a
      | None => Raise (OtherError "no such object")
      end
  | Raise e => Raise e
  end.

Lemma get_selection_mask_value points mask s :
  content_of (get_selection_mask points mask s)
  = mask_of (me s) (resolve (heap (env s)) points)
      (resolve (heap (env s)) <$> mask).
Proof.
  destruct (get_selection_mask_unfold points mask s) as (r1 & w1 & Hp & Hr).
  simpl in Hp, Hr.
  pose proof (prepare_spec _ _ _ _ _ _ Hp) as (_ & _ & _ & Hn).
  unfold mask_of, content_of. destruct r1 as [[pl ml]|e].
  2: { by rewrite Hr, Hn. }
  destruct Hn as (pv' & mv' & Hn & Hpl' & Hml').
  destruct Hr as (pv & mv & Hpl & Hml & Hr).
  assert (pv' = pv) as -> by congruence. assert (mv' = mv) as -> by congruence.
  rewrite Hn.
  pose proof (get_camera_indexes_value (OfArray pl) (Some (OfArray ml))
                (State (me s) w1)) as Hval.
  simpl in Hval. rewrite Hpl, Hml in Hval. simpl in Hval.
  rewrite <- Hval. destruct (fst (get_camera_indexes _ _ _)) as [sel|e].
  2: { by rewrite Hr. }
  rewrite Hr. simpl. rewrite list_lookup_middle by done.
  destruct (verbose (me s)); [|done].
  destruct (normalized_shape _ _ _ _ _ Hn) as (Hlpv & Hlmv & [wd Hrect]).
  symmetry in Hval. apply indexes_of_Ok_views in Hval.
  rewrite (reshape_views_rect wd); [done|by apply rect_zero_rejected|].
  rewrite length_zero_rejected. lia.
Qed.

Lemma get_selection_mask_frame points mask s :
  let out := get_selection_mask points mask s in
  me (snd out) = me s /\
  exists ext, heap (env (snd out)) = heap (env s) ++ ext.
Proof.
  intros out.
  destruct (get_selection_mask_unfold points mask s) as (r1 & w1 & Hp & Hr).
  simpl in Hp, Hr.
  pose proof (prepare_spec _ _ _ _ _ _ Hp) as (_ & [ext1 Hh1] & _ & _).
  subst out. destruct r1 as [[pl ml]|e].
  2: { rewrite Hr. simpl. eauto. }
  destruct Hr as (pv & mv & _ & _ & Hr).
  pose proof (get_camera_indexes_frame (OfArray pl) (Some (OfArray ml))
                (State (me s) w1)) as (Hme & [ext2 Hh2] & _).
  simpl in Hme, Hh2.
  destruct (fst (get_camera_indexes _ _ _)) as [sel|e]; rewrite Hr; simpl.
  - split; [done|]. exists (ext1 ++ ext2 ++ [zero_rejected sel mv]).
    by rewrite Hh2, Hh1, <- !app_assoc.
  - split; [done|]. exists (ext1 ++ ext2). by rewrite Hh2, Hh1, <- app_assoc.
Qed.

(** ** Claims about [get_selection_mask] *)

Lemma zero_rejected_lookup sel (a : ndarray) v :
  zero_rejected sel a !! v
  = (fun row => if bool_decide (v ∈ sel) then row else np.zeros_like row)
      <$> a !! v.
Proof. unfold zero_rejected. apply list_lookup_imap. Qed.

Lemma shape_zero_rejected sel (a : ndarray) :
  shape_of (zero_rejected sel a) = shape_of a.
Proof.
  apply list_eq. intros v. unfold shape_of.
  change (map length) with (fmap (M:=list) (length (A:=fval))).
  rewrite !list_lookup_fmap, zero_rejected_lookup.
  destruct (a !! v) as [row|]; [|done]. simpl.
  case_bool_decide; [done|]. unfold np.zeros_like. by rewrite length_map.
Qed.

Lemma zeros_like_zero (row : list fval) :
  Forall (fun x => x = Num 0) (np.zeros_like row).
Proof. unfold np.zeros_like. induction row; constructor; auto. Qed.

(** The run of [get_selection_mask] once the inner call has returned. *)
Lemma get_selection_mask_selected points mask s pl ml w1 sel s3 :
  prepare_triangulate_input (length (resolve (heap (env s)) points))
    points mask (env s) = (Ok (pl, ml), w1) ->
  get_camera_indexes (OfArray pl) (Some (OfArray ml)) (State (me s) w1)
    = (Ok sel, s3) ->
  exists mv,
    heap w1 !! ml = Some mv /\
    get_selection_mask points mask s
    = (Ok (length (heap (env s3))),
       State (me s) (masked (me s) (env s3) (zero_rejected sel mv))).
Proof.
  intros Hp Hinner.
  destruct (get_selection_mask_unfold points mask s) as (r1 & w1' & Hp' & Hr).
  simpl in Hp'. rewrite Hp in Hp'. injection Hp' as <- <-.
  destruct Hr as (pv & mv & _ & Hml & Hr). simpl in Hr.
  rewrite Hinner in Hr. simpl in Hr. eauto.
Qed.

(** C3. The mask [get_selection_mask] returns has the shape of the
    normalized input mask; every entry of a view that the inner call of
    [get_camera_indexes] did not return is 0, and the rows of the views it
    returned are those of the normalized input mask. *)
Theorem selection_mask_zeroes_rejected_views points mask s pl ml w1 sel s3 :
  prepare_triangulate_input (length (resolve (heap (env s)) points))
    points mask (env s) = (Ok (pl, ml), w1) ->
  get_camera_indexes (OfArray pl) (Some (OfArray ml)) (State (me s) w1)
    = (Ok sel, s3) ->
  exists mv out s' final,
    heap w1 !! ml = Some mv /\
    get_selection_mask points mask s = (Ok out, s') /\
    heap (env s') !! out = Some final /\
    shape_of final = shape_of mv /\
    (forall v, v < length mv -> v ∉ sel ->
       exists row, final !! v = Some row /\ Forall (fun x => x = Num 0) row) /\
    (forall v, v ∈ sel -> final !! v = mv !! v).
Proof.
  intros Hp Hinner.
  destruct (get_selection_mask_selected _ _ _ _ _ _ _ _ Hp Hinner)
    as (mv & Hml & Hrun).
  eexists mv, _, _, (zero_rejected sel mv).
  split; [done|]. split; [exact Hrun|]. split.
  { simpl. by apply list_lookup_middle. }
  split; [apply shape_zero_rejected|]. split.
  - intros v Hv Hnot.
    destruct (lookup_lt_is_Some_2 mv v Hv) as [row Hrow].
    exists (np.zeros_like row). split; [|apply zeros_like_zero].
    by rewrite zero_rejected_lookup, Hrow, bool_decide_false.
  - intros v Hv. rewrite zero_rejected_lookup, bool_decide_true by done.
    by destruct (mv !! v).
Qed.



(** C7. What the two methods return is a function of the selector's
    attributes and of the contents of the two arguments: run from any two
    states that agree on those, [get_camera_indexes] returns the same list
    or raises the same exception, and [get_selection_mask] returns arrays
    of the same contents or raises the same exception. Neither call
    changes an attribute of the selector. *)
Theorem calls_depend_only_on_inputs points mask points' mask' s s' :
  me s = me s' ->
  resolve (heap (env s)) points = resolve (heap (env s')) points' ->
  resolve (heap (env s)) <$> mask = resolve (heap (env s')) <$> mask' ->
  fst (get_camera_indexes points mask s)
  = fst (get_camera_indexes points' mask' s') /\
  content_of (get_selection_mask points mask s)
  = content_of (get_selection_mask points' mask' s') /\
  me (snd (get_camera_indexes points mask s)) = me s /\
  me (snd (get_selection_mask points mask s)) = me s.
Proof.
  intros Hme Hpoints Hmask. repeat split.
  - by rewrite !get_camera_indexes_value, Hme, Hpoints, Hmask.
  - by rewrite !get_selection_mask_value, Hme, Hpoints, Hmask.
  - apply get_camera_indexes_frame.
  - apply get_selection_mask_frame.
Qed.

(** C9. [get_selection_mask] works on a copy: the array that input
    normalization produced, like every array that existed before, has the
    same contents after the call; the array returned is a new object, and
    it is the one that carries the zeroed views. *)
Theorem normalized_mask_is_not_mutated points mask s pl ml w1 :
  prepare_triangulate_input (length (resolve (heap (env s)) points))
    points mask (env s) = (Ok (pl, ml), w1) ->
  let out := get_selection_mask points mask s in
  exists mv,
    heap w1 !! ml = Some mv /\
    heap (env (snd out)) !! ml = Some mv /\
    (forall l a, heap w1 !! l = Some a -> heap (env (snd out)) !! l = Some a) /\
    (forall o, fst out = Ok o ->
       o <> ml /\ heap w1 !! o = None /\
       exists sel, heap (env (snd out)) !! o = Some (zero_rejected sel mv)).
Proof.
  intros Hp out.
  destruct (get_selection_mask_unfold points mask s) as (r1 & w1' & Hp' & Hr).
  simpl in Hp'. rewrite Hp in Hp'. injection Hp' as <- <-.
  destruct Hr as (pv & mv & _ & Hml & Hr). simpl in Hr.
  pose proof (get_camera_indexes_frame (OfArray pl) (Some (OfArray ml))
                (State (me s) w1)) as (_ & [ext Hext] & _).
  simpl in Hext. exists mv. split; [done|].
  assert (Hkeep : forall l a, heap w1 !! l = Some a ->
                              heap (env (snd out)) !! l = Some a).
  { intros l a Hl. subst out.
    destruct (fst (get_camera_indexes _ _ _)) as [sel|e]; rewrite Hr; simpl.
    - rewrite Hext. by apply lookup_app_l_Some, lookup_app_l_Some.
    - rewrite Hext. by apply lookup_app_l_Some. }
  split; [by apply Hkeep|]. split; [exact Hkeep|].
  intros o Ho. subst out.
  destruct (fst (get_camera_indexes _ _ _)) as [sel|e];
    rewrite Hr in Ho |- *; simpl in *; [|done].
  injection Ho as <-.
  assert (Hlt : ml < length (heap w1)) by by eapply lookup_lt_Some.
  rewrite Hext, length_app. repeat split.
  - lia.
  - apply lookup_ge_None_2. lia.
  - exists sel. rewrite <- length_app, <- Hext. by apply list_lookup_middle.
Qed.

(** ** The constructor *)

(** C4. A target below 2 makes the constructor log an error and raise
    ValueError: no selector object comes out of it, and nothing was asked
    of the triangulator. With a target of at least 2 and a triangulator
    instance, the constructor returns a selector that holds the target. *)
Theorem init_checks_target_camera_number target tri verbose w :
  ((target < 2)%Z ->
   init target tri verbose w
   = (Raise ValueError,
      {| heap := heap w;
         log := log w ++ [LogError ("Arg target_camera_number"
                                    ++ " must be no fewer than 2." ++ newline
                                    ++ "target_camera_number: "
                                    ++ pretty target)];
         calls := calls w |})) /\
  ((2 <= target)%Z ->
   forall t, tri = TriInstance t ->
     init target tri verbose w
     = (Ok {| verbose := verbose; target_camera_number := target;
              triangulator := t |}, w)).
Proof.
  unfold init. split.
  - intros Hlt. by rewrite Z.geb_leb, (proj2 (Z.leb_gt _ _)) by lia.
  - intros Hge t ->. by rewrite Z.geb_leb, (proj2 (Z.leb_le _ _)) by lia.
Qed.

End SelectorFacts.

(** ** The list of indexes when the target is below the number of views *)

Section Ascending.

Context {NP : Numpy} {UT : Utils}.

(** X1. With two views, or with a target below the number of views, the call
    returns a strictly ascending list of views; its length is the target
    (both views when there are two). The case left out, a target equal to
    a number of views above two, is the one where the partition raises. *)
Lemma returned_indexes_are_ascending points mask s pl ml w1 :
  let n_view := length (resolve (heap (env s)) points) in
  let k := target_camera_number (me s) in
  error_shape_matches (triangulator (me s)) ->
  prepare_triangulate_input n_view points mask (env s) = (Ok (pl, ml), w1) ->
  (2 <= k)%Z ->
  n_view = 2 \/ (k < Z.of_nat n_view)%Z ->
  exists sel,
    fst (get_camera_indexes points mask s) = Ok sel /\
    StronglySorted lt sel /\
    Forall (fun v => v < n_view) sel /\
    length sel = if n_view =? 2 then n_view else Z.to_nat k.
Proof.
  intros n_view k Hshape Hp Hk Hcase.
  destruct (get_camera_indexes_prepared _ _ _ _ _ _ Hp)
    as (pv & mv & _ & _ & Hlen & Hrect & Hrun).
  fold n_view in Hlen. fold k in Hrun. rewrite Hrun, Hlen. clear Hrun.
  destruct (Nat.eqb_spec n_view 2) as [H2|Hn2].
  - exists (seq 0 n_view). rewrite H2. simpl. repeat split.
    + repeat constructor.
    + repeat constructor.
  - destruct Hcase as [|Hlt]; [done|].
    assert (Herrs := mean_errors_of_ok (triangulator (me s)) pv mv Hshape
                       Hrect ltac:(lia)).
    pose proof (mean_errors_of_length _ _ _ _ _ Herrs) as [Hlerrs _].
    set (errs := np.nanmean _) in *.
    assert (Hkn : Z.to_nat k < length errs) by lia.
    eexists. simpl. split.
    { apply (selection_ok _ _ _ _ errs Herrs). lia. }
    pose proof (sorted_indices_perm
                  (take (Z.to_nat k) (argpartition_order errs (Z.to_nat k))))
      as Hperm.
    repeat split.
    + apply sorted_indices_ascending. by apply chosen_NoDup.
    + rewrite Hperm, <- Hlen, <- Hlerrs. by apply chosen_in_range.
    + rewrite (Permutation_length Hperm). by apply chosen_length.
Qed.

End Ascending.

(** * The concrete world meets the contracts *)

#[export] Instance by_value_total a : Total (toy.by_value a).
Proof. intros i j. apply le_total. Qed.

#[export] Instance by_value_trans a : Transitive (toy.by_value a).
Proof. intros i j k. apply le_trans. Qed.

Lemma argsort_perm a k :
  k < length a -> toy.argsort a k ≡ₚ seq 0 (length a).
Proof. intros _. apply merge_sort_Permutation. Qed.

Lemma argsort_pivot a k i j x y :
  k < length a ->
  toy.argsort a k !! i = Some x ->
  toy.argsort a k !! j = Some y ->
  i <= k -> k <= j ->
  np.le (nth x a NaN) (nth y a NaN) = true.
Proof.
  intros _ Hi Hj Hik Hkj.
  destruct (decide (i = j)) as [->|Hne].
  - assert (x = y) as -> by congruence. apply le_refl.
  - eapply (StronglySorted_lookup (toy.by_value a)); [|exact Hi|exact Hj|lia].
    apply (StronglySorted_merge_sort (toy.by_value a)).
Qed.

#[export] Instance toy_numpy : Numpy :=
  {| argpartition_order := toy.argsort;
     argpartition_perm := argsort_perm;
     argpartition_pivot := argsort_pivot |}.

Lemma is_rect_rect (a : ndarray) :
  toy.is_rect a = true -> rect (length (hd [] a)) a.
Proof.
  unfold toy.is_rect, rect. generalize (length (hd [] a)). intros w.
  induction a as [|row a IH]; simpl; [constructor|].
  intros [Hrow Ha]%andb_prop. constructor; [|by apply IH].
  by apply Nat.eqb_eq.
Qed.

Lemma toy_normalized_inv c (p : ndarray) m pv mv :
  toy.normalized c p m = Ok (pv, mv) ->
  pv = p /\ length p = c /\ length mv = c /\ (exists w, rect w mv).
Proof.
  unfold toy.normalized.
  destruct (Nat.eqb_spec (length p) c) as [Hc|]; [|done]. simpl.
  destruct m as [m|].
  - destruct (Nat.eqb_spec (length m) c) as [Hm|]; [|done]. simpl.
    destruct (toy.is_rect m) eqn:Hr; [|done]. intros [= <- <-].
    repeat split; try done. eexists. by apply is_rect_rect.
  - destruct (toy.is_rect p) eqn:Hr; [|done]. intros [= <- <-].
    repeat split; try done; [by rewrite length_map|].
    exists (length (hd [] p)). apply is_rect_rect in Hr.
    unfold rect in *. apply Forall_fmap.
    eapply Forall_impl; [exact Hr|]. intros row Hrow. simpl.
    by rewrite length_map.
Qed.

Lemma toy_normalized_shape c (p : ndarray) m p' m' :
  toy.normalized c p m = Ok (p', m') ->
  length p' = c /\ length m' = c /\ exists w, rect w m'.
Proof.
  intros (-> & ? & ? & ?)%toy_normalized_inv. by repeat split.
Qed.

Lemma as_array_spec h0 x (v : ndarray) w l w' :
  toy.as_array h0 x v w = (Ok l, w') ->
  (exists ext, heap w = h0 ++ ext) ->
  resolve h0 <$> x = Some v \/ x = None ->
  calls w' = calls w /\ log w' = log w /\
  (exists ext, heap w' = heap w ++ ext) /\
  heap w' !! l = Some v.
Proof.
  intros Hrun [ext0 Hext] Hx. unfold toy.as_array, alloc in Hrun.
  assert (Halloc : (Ok (length (heap w)),
                    {| heap := heap w ++ [v]; log := log w;
                       calls := calls w |}) = (Ok l, w') ->
                   calls w' = calls w /\ log w' = log w /\
                   (exists ext, heap w' = heap w ++ ext) /\
                   heap w' !! l = Some v).
  { intros [= <- <-]. simpl. repeat split; eauto.
    by apply list_lookup_middle. }
  destruct x as [[l0|rows]|]; try by apply Halloc.
  destruct (decide (l0 < length h0)) as [Hlt|]; [|by apply Halloc].
  injection Hrun as <- <-. repeat split; [by exists []; rewrite app_nil_r|].
  destruct Hx as [Hx|]; [|done]. simpl in Hx. injection Hx as <-.
  rewrite Hext, lookup_app_l by done.
  by destruct (lookup_lt_is_Some_2 h0 l0 Hlt) as [a ->].
Qed.

Lemma toy_prepare_spec c p m w r w' :
  toy.prepare c p m w = (r, w') ->
  calls w' = calls w /\
  (exists ext, heap w' = heap w ++ ext) /\
  (exists evs, log w' = log w ++ evs) /\
  match r with
  | Ok (pl, ml) =>
      exists pv mv,
        toy.normalized c (resolve (heap w) p) (resolve (heap w) <$> m)
          = Ok (pv, mv) /\
        heap w' !! pl = Some pv /\ heap w' !! ml = Some mv
  | Raise e =>
      toy.normalized c (resolve (heap w) p) (resolve (heap w) <$> m) = Raise e
  end.
Proof.
  unfold toy.prepare.
  destruct (toy.normalized _ _ _) as [[pv mv]|e] eqn:Hn.
  2: { intros [= <- <-]. simpl. repeat split; eauto.
       by exists []; rewrite app_nil_r. }
  pose proof (toy_normalized_inv _ _ _ _ _ Hn) as (Hpv & _).
  unfold bind, ret.
  destruct (toy.as_array (heap w) (Some p) pv w) as [[pl|e] w1] eqn:H1.
  2: { unfold toy.as_array, alloc in H1. destruct p; [|done].
       by destruct (decide _). }
  destruct (toy.as_array (heap w) m mv w1) as [[ml|e] w2] eqn:H2.
  2: { unfold toy.as_array, alloc in H2. destruct m as [[?|?]|]; try done.
       by destruct (decide _). }
  intros [= <- <-].
  apply as_array_spec in H1 as (Hc1 & Hl1 & [ext1 Hh1] & Hpl).
  2: { by exists []; rewrite app_nil_r. }
  2: { left. simpl. by rewrite Hpv. }
  apply as_array_spec in H2 as (Hc2 & Hl2 & [ext2 Hh2] & Hml).
  2: { eauto. }
  2: { destruct m as [m|]; [left|by right]. simpl in *.
       unfold toy.normalized in Hn. destruct (negb _); [done|].
       destruct (_ && _); [|done]. by injection Hn as _ ->. }
  repeat split.
  - by rewrite Hc2, Hc1.
  - exists (ext1 ++ ext2). by rewrite Hh2, Hh1, <- app_assoc.
  - exists []. by rewrite Hl2, Hl1, app_nil_r.
  - exists pv, mv. repeat split; [|done].
    rewrite Hh2. by apply lookup_app_l_Some.
Qed.

#[export] Instance toy_utils : Utils :=
  {| normalized := toy.normalized;
     normalized_shape := toy_normalized_shape;
     prepare_triangulate_input := toy.prepare;
     prepare_spec := toy_prepare_spec;
     get_valid_views_stats := toy.stats;
     build_triangulator := toy.build |}.

Lemma toy_error_shape : error_shape_matches toy.triangulator.
Proof.
  intros p p3 m [w Hm]. simpl. unfold toy.signed_error. split.
  - apply length_imap.
  - exists w. unfold rect in *. rewrite !Forall_lookup in *. intros v row.
    rewrite list_lookup_imap. destruct (m !! v) as [mrow|] eqn:Hv; [|done].
    simpl. intros [= <-]. rewrite length_imap. by eapply Hm.
Qed.

(** * Runs in the concrete world *)

Module example.

Definition q (z : Z) : fval := Num (inject_Z z).

(** Four views of three points; the third view is far off the others. *)
Definition points : list (list fval) :=
  [[q 1; q 2; q 3]; [q 1; q 2; q 5]; [q 11; q 12; q 13]; [q 2; q 2; q 3]].

(** The second point is masked by NaN in the third view. *)
Definition mask : list (list fval) :=
  [[q 1; q 1; q 1]; [q 1; q 1; q 1]; [q 1; NaN; q 1]; [q 1; q 1; q 1]].

Definition selector (k : Z) : CameraErrorSelector :=
  {| verbose := true; target_camera_number := k;
     triangulator := toy.triangulator |}.

Definition empty : world := {| heap := []; log := []; calls := [] |}.

Definition start (k : Z) : state := {| me := selector k; env := empty |}.

(** The world once the two nested lists have been turned into arrays. *)
Definition loaded (m : list (list fval)) : world :=
  {| heap := [points; m]; log := []; calls := [] |}.

End example.

Import example.


(** The run of C5 on the first two views. *)
Lemma two_views_are_kept_witness :
  fst (get_camera_indexes (OfList (take 2 points)) None (start 2))
  = Ok [0; 1].
Proof.
  apply (two_views_are_kept (NP:=toy_numpy) (UT:=toy_utils) (OfList (take 2 points)) None (start 2) (0, 1)
           {| heap := [take 2 points;
                       map (map (fun _ => q 1)) (take 2 points)];
              log := []; calls := [] |}
           ltac:(vm_compute; reflexivity) ltac:(vm_compute; reflexivity)).
Defined.


(** The run of C10: four views, four of them wanted. *)
Lemma target_equal_to_n_view_raises_witness :
  fst (get_camera_indexes (OfList points) (Some (OfList mask)) (start 4))
  = Raise ValueError.
Proof.
  destruct (target_equal_to_n_view_raises (NP:=toy_numpy) (UT:=toy_utils)
              (OfList points) (Some (OfList mask)) (start 4) 0 1 (loaded mask)
              toy_error_shape ltac:(vm_compute; reflexivity) ltac:(vm_compute; lia) ltac:(vm_compute; reflexivity))
    as (pv & mv & errs & _ & _ & _ & _ & _ & Hrun).
  exact Hrun.
Defined.

(** The state the inner call of [get_camera_indexes] leaves. *)
Definition after_selection (k : Z) : state :=
  {| me := selector k;
     env := {| heap := [points; mask]; log := [];
               calls := [CallTriangulate; CallGetReprojectionError] |} |}.

(** The run of C3: three of the four views wanted, the third is rejected. *)
Lemma selection_mask_zeroes_rejected_views_witness :
  exists out s' final,
    get_selection_mask (OfList points) (Some (OfList mask)) (start 3)
      = (Ok out, s') /\
    heap (env s') !! out = Some final /\
    shape_of final = shape_of mask /\
    final !! 0 = mask !! 0.
Proof.
  destruct (selection_mask_zeroes_rejected_views (NP:=toy_numpy) (UT:=toy_utils)
              (OfList points) (Some (OfList mask)) (start 3) 0 1 (loaded mask)
              [0; 1; 3] (after_selection 3) ltac:(vm_compute; reflexivity) ltac:(vm_compute; reflexivity))
    as (mv & out & s' & final & Hmv & Hrun & Hout & Hshape & _ & Hkept).
  injection Hmv as <-.
  exists out, s', final.
  split; [exact Hrun|]. split; [exact Hout|]. split; [exact Hshape|].
  apply Hkept. apply elem_of_cons. by left.
Defined.


(** The run of C7: a second call, made in the state the first one left. *)
Lemma calls_depend_only_on_inputs_witness :
  let s := start 3 in
  let s' := snd (get_selection_mask (OfList points) (Some (OfList mask)) s) in
  fst (get_camera_indexes (OfList points) (Some (OfList mask)) s)
  = fst (get_camera_indexes (OfList points) (Some (OfList mask)) s') /\
  content_of (get_selection_mask (OfList points) (Some (OfList mask)) s)
  = content_of (get_selection_mask (OfList points) (Some (OfList mask)) s').
Proof.
  intros s s'.
  destruct (calls_depend_only_on_inputs (NP:=toy_numpy) (UT:=toy_utils)
              (OfList points) (Some (OfList mask))
              (OfList points) (Some (OfList mask)) s s'
              ltac:(vm_compute; reflexivity) ltac:(vm_compute; reflexivity) ltac:(vm_compute; reflexivity))
    as (H1 & H2 & _ & _).
  by split.
Defined.

(** The run of C9: the normalized mask is array 1, the result is array 2. *)
Lemma normalized_mask_is_not_mutated_witness :
  let out := get_selection_mask (OfList points) (Some (OfList mask))
               (start 3) in
  heap (env (snd out)) !! 1 = Some mask /\ fst out = Ok 2.
Proof.
  intros out.
  destruct (normalized_mask_is_not_mutated (NP:=toy_numpy) (UT:=toy_utils)
              (OfList points) (Some (OfList mask)) (start 3) 0 1 (loaded mask)
              ltac:(vm_compute; reflexivity))
    as (mv & Hmv & Hafter & _ & _).
  injection Hmv as <-. split; [exact Hafter|]. vm_compute. reflexivity.
Defined.

(** The run of C4 at targets 1 and 2. *)
Lemma init_checks_target_camera_number_witness :
  fst (init 1 (TriInstance toy.triangulator) true empty) = Raise ValueError /\
  fst (init 2 (TriInstance toy.triangulator) true empty) = Ok (selector 2).
Proof.
  destruct (init_checks_target_camera_number (UT:=toy_utils)
              1 (TriInstance toy.triangulator) true empty) as [Hlow _].
  destruct (init_checks_target_camera_number (UT:=toy_utils)
              2 (TriInstance toy.triangulator) true empty) as [_ Hok].
  split.
  - by rewrite Hlow.
  - by rewrite (Hok ltac:(lia) toy.triangulator ltac:(vm_compute; reflexivity)).
Defined.

(** C2, at the input where the code fails: three views, three wanted.
    The call raises ValueError where the claim has it return [0, 1, 2]. *)
Theorem three_views_three_wanted_raises :
  fst (get_camera_indexes (OfList (take 3 points)) None (start 3))
  = Raise ValueError.
Proof. vm_compute. reflexivity. Qed.


(** * Further properties of the selector *)

Section SelectorMore.

Context {NP : Numpy} {UT : Utils}.

(** ** Helper facts *)

Lemma selection_raises_at_large_target tri (k : Z) (pv mv : ndarray) :
  error_shape_matches tri -> (exists wd, rect wd mv) ->
  (Z.of_nat (length mv) <= k)%Z ->
  selection tri k pv mv = Raise ValueError.
Proof.
  intros Hshape Hrect Hk. destruct (decide (length mv = 0)) as [H0|Hn].
  - unfold selection, mean_errors_of. by rewrite H0.
  - eapply selection_out_of_bounds; [|done].
    by apply mean_errors_of_ok.
Qed.

Lemma zero_rejected_all sel (a : ndarray) :
  (forall v, v < length a -> v ∈ sel) -> zero_rejected sel a = a.
Proof.
  intros Hall. apply list_eq. intros v. rewrite zero_rejected_lookup.
  destruct (a !! v) as [row|] eqn:Hv; [|done]. simpl.
  rewrite bool_decide_true; [done|].
  apply Hall. by eapply lookup_lt_Some.
Qed.

(** ** Errors *)

(** X2. When the target is not below the number of views, and there are
    not exactly two views, [get_camera_indexes] raises ValueError: with no
    view the reshape fails, otherwise the partition index is out of
    bounds. This includes a single view. *)
Theorem target_not_below_n_view_raises points mask s pl ml w1 :
  let n_view := length (resolve (heap (env s)) points) in
  error_shape_matches (triangulator (me s)) ->
  prepare_triangulate_input n_view points mask (env s) = (Ok (pl, ml), w1) ->
  n_view <> 2 ->
  (Z.of_nat n_view <= target_camera_number (me s))%Z ->
  fst (get_camera_indexes points mask s) = Raise ValueError.
Proof.
  intros n_view Hshape Hp Hn Hk.
  destruct (get_camera_indexes_prepared _ _ _ _ _ _ Hp)
    as (pv & mv & _ & _ & Hlen & Hrect & Hrun).
  fold n_view in Hlen. rewrite Hrun.
  destruct (Nat.eqb_spec (length mv) 2) as [|_]; [lia|]. simpl.
  apply selection_raises_at_large_target; [done|done|lia].
Qed.

(** X3. When input normalization raises, both methods raise the same
    exception at once: the state is the one normalization left, no call was
    made to the triangulator and no array was copied. *)
Theorem rejected_input_is_reported points mask s e w1 :
  prepare_triangulate_input (length (resolve (heap (env s)) points))
    points mask (env s) = (Raise e, w1) ->
  get_camera_indexes points mask s = (Raise e, State (me s) w1) /\
  get_selection_mask points mask s = (Raise e, State (me s) w1) /\
  calls w1 = calls (env s).
Proof.
  intros Hp.
  pose proof (prepare_spec _ _ _ _ _ _ Hp) as (Hcalls & _).
  destruct (get_camera_indexes_unfold points mask s) as (r1 & w1' & Hp' & Hr).
  destruct (get_selection_mask_unfold points mask s) as (r2 & w2' & Hp2 & Hr2).
  simpl in Hp', Hp2. rewrite Hp in Hp', Hp2.
  injection Hp' as <- <-. injection Hp2 as <- <-.
  destruct Hr as [_ Hr]. by repeat split.
Qed.

(** X8. When the call of [get_camera_indexes] inside [get_selection_mask]
    raises, [get_selection_mask] raises the same exception and stops there:
    the state is the one that call left, and the mask was not copied. *)
Theorem selection_error_is_passed_on points mask s pl ml w1 e s3 :
  prepare_triangulate_input (length (resolve (heap (env s)) points))
    points mask (env s) = (Ok (pl, ml), w1) ->
  get_camera_indexes (OfArray pl) (Some (OfArray ml)) (State (me s) w1)
    = (Raise e, s3) ->
  get_selection_mask points mask s = (Raise e, s3).
Proof.
  intros Hp Hinner.
  destruct (get_selection_mask_unfold points mask s) as (r1 & w1' & Hp' & Hr).
  simpl in Hp'. rewrite Hp in Hp'. injection Hp' as <- <-.
  destruct Hr as (pv & mv & _ & _ & Hr). simpl in Hr.
  by rewrite Hinner in Hr.
Qed.

(** X5. With more than two views and a target equal to their number,
    [get_selection_mask] raises ValueError as well, whenever both rounds of
    normalization accept the input. *)
Theorem mask_with_target_equal_to_n_view_raises
    points mask s pl ml w1 prepared w2 :
  let n_view := length (resolve (heap (env s)) points) in
  error_shape_matches (triangulator (me s)) ->
  prepare_triangulate_input n_view points mask (env s) = (Ok (pl, ml), w1) ->
  prepare_triangulate_input n_view (OfArray pl) (Some (OfArray ml)) w1
    = (Ok prepared, w2) ->
  2 < n_view ->
  target_camera_number (me s) = Z.of_nat n_view ->
  fst (get_selection_mask points mask s) = Raise ValueError.
Proof.
  intros n_view Hshape Hp Hp2 Hn Hk.
  destruct (prepared_views _ _ _ _ _ _ _ Hp)
    as (pv & mv & Hpl & Hml & Hlpv & _).
  destruct prepared as [pl2 ml2].
  set (s1 := State (me s) w1).
  assert (Hviews : length (resolve (heap (env s1)) (OfArray pl)) = n_view).
  { simpl. by rewrite Hpl. }
  rewrite <- Hviews in Hp2.
  destruct (get_camera_indexes_prepared (OfArray pl) (Some (OfArray ml)) s1
              pl2 ml2 w2 Hp2)
    as (pv2 & mv2 & _ & _ & Hlen2 & Hrect2 & Hrun).
  rewrite Hviews in Hlen2.
  destruct (Nat.eqb_spec (length mv2) 2) as [|_]; [lia|].
  rewrite (selection_raises_at_large_target _ _ _ _ Hshape Hrect2) in Hrun.
  2: { simpl. lia. }
  destruct (get_selection_mask_unfold points mask s) as (r1 & w1' & Hp' & Hr).
  simpl in Hp'. fold n_view in Hp'. rewrite Hp in Hp'. injection Hp' as <- <-.
  destruct Hr as (pv' & mv' & _ & _ & Hr). simpl in Hr.
  fold s1 in Hr. rewrite Hrun in Hr. simpl in Hr. by rewrite Hr.
Qed.

(** ** Two views *)

(** X4. With two views [get_selection_mask] zeroes nothing: the array it
    returns is a new object with the contents of the normalized mask. *)
Theorem two_views_mask_is_a_plain_copy points mask s pl ml w1 prepared w2 :
  length (resolve (heap (env s)) points) = 2 ->
  prepare_triangulate_input 2 points mask (env s) = (Ok (pl, ml), w1) ->
  prepare_triangulate_input 2 (OfArray pl) (Some (OfArray ml)) w1
    = (Ok prepared, w2) ->
  exists out s' mv,
    get_selection_mask points mask s = (Ok out, s') /\
    heap w1 !! ml = Some mv /\
    heap (env s') !! out = Some mv /\
    out <> ml /\
    calls (env s') = calls (env s).
Proof.
  intros Hn Hp Hp2.
  pose proof (prepare_spec _ _ _ _ _ _ Hp) as (Hc1 & [ext1 Hh1] & _).
  pose proof (prepare_spec _ _ _ _ _ _ Hp2) as (Hc2 & [ext2 Hh2] & _).
  destruct (prepared_views _ _ _ _ _ _ _ Hp)
    as (pv & mv & Hpl & Hml & Hlpv & Hlmv & _).
  destruct prepared as [pl2 ml2].
  set (s1 := State (me s) w1).
  assert (Hviews : length (resolve (heap (env s1)) (OfArray pl)) = 2).
  { simpl. by rewrite Hpl. }
  rewrite <- Hviews in Hp2.
  destruct (get_camera_indexes_prepared (OfArray pl) (Some (OfArray ml)) s1
              pl2 ml2 w2 Hp2)
    as (pv2 & mv2 & _ & _ & Hlen2 & _ & Hrun).
  rewrite Hviews in Hlen2. rewrite Hlen2 in Hrun. simpl in Hrun.
  rewrite <- Hn in Hp.
  destruct (get_selection_mask_selected _ _ _ _ _ _ _ _ Hp Hrun)
    as (mv' & Hml' & Hgsm).
  assert (mv' = mv) as -> by congruence.
  rewrite zero_rejected_all in Hgsm.
  2: { intros v Hv. rewrite Hlmv in Hv.
       destruct v as [|[|v]]; [repeat constructor..|lia]. }
  eexists _, _, mv. split; [exact Hgsm|]. split; [done|]. simpl.
  split; [by apply list_lookup_middle|]. split.
  - apply lookup_lt_Some in Hml. rewrite Hh2, length_app. lia.
  - by rewrite Hc2, Hc1.
Qed.

(** ** Calls and log of [get_selection_mask] *)


(** X7. After the selection, [get_selection_mask] logs the table of
    valid-view statistics of the mask it returns when the selector is
    verbose, and logs nothing when it is not. *)
Theorem selection_mask_logs_stats_of_result points mask s pl ml w1 sel s3 :
  prepare_triangulate_input (length (resolve (heap (env s)) points))
    points mask (env s) = (Ok (pl, ml), w1) ->
  get_camera_indexes (OfArray pl) (Some (OfArray ml)) (State (me s) w1)
    = (Ok sel, s3) ->
  exists out s' final,
    get_selection_mask points mask s = (Ok out, s') /\
    heap (env s') !! out = Some final /\
    log (env s')
    = log (env s3)
      ++ (if verbose (me s)
          then [LogInfo (snd (get_valid_views_stats final))] else []).
Proof.
  intros Hp Hinner.
  destruct (get_selection_mask_selected _ _ _ _ _ _ _ _ Hp Hinner)
    as (mv & _ & Hrun).
  eexists _, _, (zero_rejected sel mv). split; [exact Hrun|]. simpl.
  split; [by apply list_lookup_middle|done].
Qed.

(** ** The mean errors *)

Definition not_negative (x : fval) : Prop :=
  match x with
  | NaN => True
  | Num q => (0 <= q)%Q
  end.

Lemma abs1_not_negative x : not_negative (np.abs1 x).
Proof. destruct x as [q|]; simpl; [apply Qabs_nonneg|done]. Qed.

Lemma Qsum_not_negative qs :
  Forall (fun q => (0 <= q)%Q) qs -> (0 <= np.Qsum qs)%Q.
Proof.
  induction 1 as [|q qs Hq _ IH]; simpl; [apply Qle_refl|].
  replace 0%Q with (0 + 0)%Q by done. by apply Qplus_le_compat.
Qed.

Lemma numbers_not_negative row :
  Forall not_negative row -> Forall (fun q => (0 <= q)%Q) (np.numbers row).
Proof.
  induction 1 as [|x row Hx _ IH]; simpl; [constructor|].
  destruct x; [by constructor|done].
Qed.

Lemma nanmean1_not_negative row :
  Forall not_negative row -> not_negative (np.nanmean1 row).
Proof.
  intros Hrow%numbers_not_negative. unfold np.nanmean1.
  destruct (np.numbers row) as [|q qs] eqn:Hqs; [done|]. simpl.
  rewrite Qred_correct. unfold Qdiv. apply Qmult_le_0_compat.
  - by apply (Qsum_not_negative (q :: qs)).
  - apply Qinv_le_0_compat. unfold Qle. simpl. lia.
Qed.

Lemma Forall_chunks (P : fval -> Prop) w n flat :
  Forall P flat -> Forall (Forall P) (np.chunks w n flat).
Proof.
  revert flat. induction n as [|n IH]; intros flat Hflat; simpl.
  - constructor.
  - constructor; [by apply Forall_take|]. apply IH. by apply Forall_drop.
Qed.

Lemma nanmean1_nan_iff row :
  np.nanmean1 row = NaN <-> Forall (fun x => x = NaN) row.
Proof.
  unfold np.nanmean1. split.
  - intros Hmean. induction row as [|x row IH]; [constructor|].
    destruct x as [q|]; simpl in Hmean; [done|].
    constructor; [done|]. by apply IH.
  - induction 1 as [|x row -> _ IH]; [done|]. simpl. exact IH.
Qed.

(** X10. A mean error is never negative: each entry of the vector the
    views are ranked by is NaN or a number that is at least 0. *)
Theorem mean_errors_are_not_negative tri n (p m : ndarray) errs :
  mean_errors_of tri n p m = Ok errs ->
  Forall not_negative errs.
Proof.
  unfold mean_errors_of, reshape.views.
  destruct (n =? 0); [done|]. destruct (_ =? 0); [|done].
  intros [= <-]. unfold np.nanmean. apply Forall_fmap.
  eapply Forall_impl; [|intros row Hrow; by apply nanmean1_not_negative].
  apply Forall_chunks, Forall_concat. unfold np.abs.
  apply Forall_fmap, Forall_true. intros row. simpl.
  apply Forall_fmap, Forall_true. intros x. apply abs1_not_negative.
Qed.

(** X11. The mean error of a view is NaN exactly when every error entry of
    that view is NaN. *)
Theorem mean_error_is_nan_iff_all_nan tri (p m : ndarray) errs v erow :
  error_shape_matches tri -> (exists wd, rect wd m) ->
  mean_errors_of tri (length m) p m = Ok errs ->
  get_reprojection_error tri p (triangulate tri p m) m !! v = Some erow ->
  errs !! v = Some NaN <-> Forall (fun x => x = NaN) erow.
Proof.
  intros Hshape Hrect Herrs Hv.
  assert (Hn : length m <> 0).
  { by apply mean_errors_of_length in Herrs as [_ ?]. }
  rewrite (mean_errors_of_ok tri p m Hshape Hrect Hn) in Herrs.
  injection Herrs as <-. unfold np.nanmean, np.abs.
  change (map np.nanmean1) with (fmap (M:=list) np.nanmean1).
  change (map (map np.abs1)) with (fmap (M:=list) (map np.abs1)).
  rewrite !list_lookup_fmap, Hv. simpl. split.
  - intros [= Hmean]. apply nanmean1_nan_iff in Hmean.
    apply Forall_fmap in Hmean. eapply Forall_impl; [exact Hmean|].
    intros x. by destruct x.
  - intros Hall. f_equal. apply nanmean1_nan_iff, Forall_fmap.
    eapply Forall_impl; [exact Hall|]. by intros x ->.
Qed.

(** The list returned when the target is below the number of views. *)
Lemma get_camera_indexes_selects points mask s pl ml w1 :
  let n_view := length (resolve (heap (env s)) points) in
  let k := target_camera_number (me s) in
  let tri := triangulator (me s) in
  error_shape_matches tri ->
  prepare_triangulate_input n_view points mask (env s) = (Ok (pl, ml), w1) ->
  n_view <> 2 ->
  (0 <= k < Z.of_nat n_view)%Z ->
  exists pv mv,
    heap w1 !! pl = Some pv /\ heap w1 !! ml = Some mv /\
    let errs :=
      np.nanmean (np.abs (get_reprojection_error tri pv
                            (triangulate tri pv mv) mv)) in
    length errs = n_view /\
    fst (get_camera_indexes points mask s)
    = Ok (merge_sort le (take (Z.to_nat k)
                           (argpartition_order errs (Z.to_nat k)))).
Proof.
  intros n_view k tri Hshape Hp Hn Hk.
  destruct (get_camera_indexes_prepared _ _ _ _ _ _ Hp)
    as (pv & mv & Hpl & Hml & Hlen & Hrect & Hrun).
  fold n_view in Hlen. fold k tri in Hrun.
  exists pv, mv. split; [done|]. split; [done|].
  assert (Herrs := mean_errors_of_ok tri pv mv Hshape Hrect ltac:(lia)).
  pose proof (mean_errors_of_length _ _ _ _ _ Herrs) as [Hlerrs _].
  simpl. split; [lia|]. rewrite Hrun.
  destruct (Nat.eqb_spec (length mv) 2) as [|_]; [lia|]. simpl.
  apply selection_ok; [done|lia].
Qed.

(** X9. Views whose mean error is NaN are taken last: when a returned view
    has a NaN mean error, every view that was left out has a NaN mean
    error too. *)
Theorem nan_mean_views_are_taken_last points mask s pl ml w1 :
  let n_view := length (resolve (heap (env s)) points) in
  let k := target_camera_number (me s) in
  let tri := triangulator (me s) in
  error_shape_matches tri ->
  prepare_triangulate_input n_view points mask (env s) = (Ok (pl, ml), w1) ->
  n_view <> 2 ->
  (0 <= k < Z.of_nat n_view)%Z ->
  exists pv mv sel,
    heap w1 !! pl = Some pv /\ heap w1 !! ml = Some mv /\
    fst (get_camera_indexes points mask s) = Ok sel /\
    let errs :=
      np.nanmean (np.abs (get_reprojection_error tri pv
                            (triangulate tri pv mv) mv)) in
    forall i j,
      i ∈ sel -> nth i errs NaN = NaN ->
      j < n_view -> j ∉ sel ->
      nth j errs NaN = NaN.
Proof.
  intros n_view k tri Hshape Hp Hn Hk.
  destruct (get_camera_indexes_selects _ _ _ _ _ _ Hshape Hp Hn Hk)
    as (pv & mv & Hpl & Hml & Hlerrs & Hrun).
  fold n_view k tri in Hlerrs, Hrun. simpl in Hlerrs, Hrun.
  set (errs := np.nanmean _) in *.
  eexists pv, mv, _. split; [done|]. split; [done|]. split; [exact Hrun|].
  simpl. fold errs. intros i j Hi Hnan Hj Hnj.
  assert (Hkn : Z.to_nat k < length errs) by lia.
  rewrite sorted_indices_perm in Hi, Hnj.
  pose proof (chosen_smallest errs (Z.to_nat k) Hkn i j Hi ltac:(lia) Hnj)
    as Hle.
  rewrite Hnan in Hle. destruct (nth j errs NaN); [done|done].
Qed.

End SelectorMore.

(** ** Runs of the further properties *)

(** The run of X1: four views, two wanted. *)
Lemma returned_indexes_are_ascending_witness :
  exists sel,
    fst (get_camera_indexes (OfList points) None (start 2)) = Ok sel /\
    StronglySorted lt sel /\ length sel = 2.
Proof.
  destruct (returned_indexes_are_ascending (NP:=toy_numpy) (UT:=toy_utils)
              (OfList points) None (start 2) 0 1
              (loaded (map (map (fun _ => q 1)) points))
              toy_error_shape ltac:(vm_compute; reflexivity)
              ltac:(vm_compute; discriminate)
              ltac:(right; vm_compute; reflexivity))
    as (sel & Hrun & Hsorted & _ & Hlen).
  exists sel. split; [exact Hrun|]. split; [exact Hsorted|exact Hlen].
Defined.

(** The run of X2: a single view, two wanted. *)
Lemma target_not_below_n_view_raises_witness :
  fst (get_camera_indexes (OfList (take 1 points)) None (start 2))
  = Raise ValueError.
Proof.
  apply (target_not_below_n_view_raises (NP:=toy_numpy) (UT:=toy_utils)
           (OfList (take 1 points)) None (start 2) 0 1
           {| heap := [take 1 points; [[q 1; q 1; q 1]]];
              log := []; calls := [] |}
           toy_error_shape ltac:(vm_compute; reflexivity)).
  - vm_compute. lia.
  - vm_compute. discriminate.
Defined.

(** The run of X3: a mask of two views for points of four views. *)
Lemma rejected_input_is_reported_witness :
  fst (get_camera_indexes (OfList points) (Some (OfList (take 2 mask)))
         (start 3)) = Raise ValueError /\
  fst (get_selection_mask (OfList points) (Some (OfList (take 2 mask)))
         (start 3)) = Raise ValueError.
Proof.
  destruct (rejected_input_is_reported (NP:=toy_numpy) (UT:=toy_utils)
              (OfList points) (Some (OfList (take 2 mask))) (start 3)
              ValueError
              {| heap := [];
                 log := [LogError "Wrong shape of triangulation input."];
                 calls := [] |}
              ltac:(vm_compute; reflexivity))
    as (H1 & H2 & _).
  split; [by rewrite H1|by rewrite H2].
Defined.

(** The run of X8: four views, four wanted; the inner call raises. *)
Lemma selection_error_is_passed_on_witness :
  get_selection_mask (OfList points) (Some (OfList mask)) (start 4)
  = (Raise ValueError, after_selection 4).
Proof.
  apply (selection_error_is_passed_on (NP:=toy_numpy) (UT:=toy_utils)
           (OfList points) (Some (OfList mask)) (start 4) 0 1 (loaded mask)
           ValueError (after_selection 4)
           ltac:(vm_compute; reflexivity) ltac:(vm_compute; reflexivity)).
Defined.

(** The run of X5: four views, four wanted. *)
Lemma mask_with_target_equal_to_n_view_raises_witness :
  fst (get_selection_mask (OfList points) (Some (OfList mask)) (start 4))
  = Raise ValueError.
Proof.
  apply (mask_with_target_equal_to_n_view_raises
           (NP:=toy_numpy) (UT:=toy_utils)
           (OfList points) (Some (OfList mask)) (start 4) 0 1 (loaded mask)
           (0, 1) (loaded mask)
           toy_error_shape ltac:(vm_compute; reflexivity)
           ltac:(vm_compute; reflexivity)).
  - vm_compute. lia.
  - vm_compute. reflexivity.
Defined.

(** The run of X4 on the first two views. *)
Lemma two_views_mask_is_a_plain_copy_witness :
  exists s',
    get_selection_mask (OfList (take 2 points)) None (start 2)
      = (Ok 2, s') /\
    heap (env s') !! 2 = Some [[Num 1; Num 1; Num 1]; [Num 1; Num 1; Num 1]].
Proof.
  destruct (two_views_mask_is_a_plain_copy (NP:=toy_numpy) (UT:=toy_utils)
              (OfList (take 2 points)) None (start 2) 0 1
              {| heap := [take 2 points; [[q 1; q 1; q 1]; [q 1; q 1; q 1]]];
                 log := []; calls := [] |}
              (0, 1)
              {| heap := [take 2 points; [[q 1; q 1; q 1]; [q 1; q 1; q 1]]];
                 log := []; calls := [] |}
              ltac:(vm_compute; reflexivity) ltac:(vm_compute; reflexivity)
              ltac:(vm_compute; reflexivity))
    as (out & s' & mv & Hrun & Hmv & Hout & _ & _).
  injection Hmv as <-.
  assert (out = 2) as ->.
  { assert (H : fst (get_selection_mask (OfList (take 2 points)) None
                       (start 2)) = Ok out) by by rewrite Hrun.
    vm_compute in H. by injection H. }
  exists s'. split; [exact Hrun|exact Hout].
Defined.


(** The run of X7: a verbose selector, four views, three wanted. *)
Lemma selection_mask_logs_stats_of_result_witness :
  exists out s' final,
    get_selection_mask (OfList points) (Some (OfList mask)) (start 3)
      = (Ok out, s') /\
    heap (env s') !! out = Some final /\
    log (env s') = [LogInfo (snd (toy.stats final))].
Proof.
  destruct (selection_mask_logs_stats_of_result
              (NP:=toy_numpy) (UT:=toy_utils)
              (OfList points) (Some (OfList mask)) (start 3) 0 1 (loaded mask)
              [0; 1; 3] (after_selection 3)
              ltac:(vm_compute; reflexivity) ltac:(vm_compute; reflexivity))
    as (out & s' & final & Hrun & Hout & Hlog).
  exists out, s', final.
  split; [exact Hrun|]. split; [exact Hout|exact Hlog].
Defined.

(** The run of X10 on the four views. *)
Lemma mean_errors_are_not_negative_witness :
  Forall not_negative
    [Num (23 # 12); Num (5 # 4); Num (57 # 8); Num (19 # 12)].
Proof.
  apply (mean_errors_are_not_negative toy.triangulator 4 points mask).
  vm_compute. reflexivity.
Defined.

(** The run of X11 at the third view, which has one NaN entry. *)
Lemma mean_error_is_nan_iff_all_nan_witness :
  Some (Num (57 # 8)) = Some NaN
  <-> Forall (fun x => x = NaN) [Num (29 # 4); NaN; Num 7].
Proof.
  apply (mean_error_is_nan_iff_all_nan toy.triangulator points mask
           [Num (23 # 12); Num (5 # 4); Num (57 # 8); Num (19 # 12)] 2
           [Num (29 # 4); NaN; Num 7]
           toy_error_shape).
  - exists 3. repeat constructor.
  - vm_compute. reflexivity.
  - vm_compute. reflexivity.
Defined.

(** The run of X9: four views, three wanted. *)
Lemma nan_mean_views_are_taken_last_witness :
  exists sel,
    fst (get_camera_indexes (OfList points) (Some (OfList mask)) (start 3))
    = Ok sel.
Proof.
  destruct (nan_mean_views_are_taken_last (NP:=toy_numpy) (UT:=toy_utils)
              (OfList points) (Some (OfList mask)) (start 3) 0 1 (loaded mask)
              toy_error_shape ltac:(vm_compute; reflexivity)
              ltac:(vm_compute; discriminate)
              ltac:(vm_compute; split; [discriminate|reflexivity]))
    as (pv & mv & sel & _ & _ & Hrun & _).
  by exists sel.
Defined.

(** * The top-down keypoints estimator

    [MMposeTopDownEstimator]
    (xrmocap/human_detection/keypoints_estimation/mmpose_top_down_estimator.py).
    The pose model and the inference function belong to mmpose, the
    [Keypoints] class to another module: the first two are parameters, the
    third is the record of what its constructor is given. *)

Module estimator.

Definition NotImplementedError : exn := OtherError "NotImplementedError".

Definition NameError (name : string) : exn :=
  OtherError ("NameError: name '" ++ name ++ "' is not defined").

Definition ModuleNotFoundError : exn :=
  OtherError "ModuleNotFoundError: Please install mmpose to run detection.".

(** [__translate_data_source__] *)
Definition translate_data_source (mmpose_dataset_name : string)
  : result string :=
  if String.eqb mmpose_dataset_name "TopDownSenseWholeBodyDataset"
  then Ok "sense_whole_body"
  else if String.eqb mmpose_dataset_name "TopDownCocoWholeBodyDataset"
       then Ok "coco_wholebody"
       else Raise NotImplementedError.

(** A keypoint is (x, y, confidence); a human is an array of keypoints; a
    bbox is (x1, y1, x2, y2, score). *)
Abbreviation keypoint := (fval * fval * fval)%type (only parsing).
Abbreviation human := (list (fval * fval * fval)) (only parsing).
Abbreviation bbox := (list fval) (only parsing).

Definition zero_keypoint : keypoint := (Num 0, Num 0, Num 0).

(** What [Keypoints(kps=..., mask=..., convention=...)] is given. *)
Record Keypoints : Type := {
  kps : list (list (list keypoint));
  mask : list (list (list nat));
  convention : string
}.

(** An entry of [pose_results], and an entry of [returned_outputs]. *)
Record pose_result : Type := {
  pr_keypoints : human;
  pr_bbox : bbox
}.

(** The keyword the image is passed under. *)
Inductive image_keyword : Type :=
  | imgs_or_paths
  | img_or_path.

(** mmpose and mmcv. *)
Class Mmpose : Type := {
  image : Type;
  heatmap : Type;
  model : Type;
  kwargs : Type;
  (** [model.cfg.data['test']['type']] *)
  dataset_type : model -> string;
  init_pose_model : kwargs -> model;
  (** [inference_top_down_pose_model(model, person_results, bbox_thr,
      format, dataset, return_heatmap, outputs, **img_input)]; the entries
      of [returned_outputs] are given by their heatmaps. *)
  inference_top_down_pose_model :
    model -> list bbox -> fval -> string -> string -> bool ->
    image_keyword -> image -> list pose_result * list heatmap;
  digit_version : string -> list nat;
  mmpose_version : string
}.

Section Estimator.

Context {MM : Mmpose}.

Record MMposeTopDownEstimator : Type := {
  pose_model : model;
  batch_size : nat;
  bbox_thr : fval;
  use_old_api : bool
}.

(** *** The module's globals

    The imports are in one [try] block: the first one that fails leaves the
    names after it unbound and sets [has_mmpose] to False. *)
Record globals : Type := {
  has_mmpose : bool;
  bound : list string
}.

Definition load_module (mmcv_found mmpose_found apis_found : bool) : globals :=
  if negb mmcv_found then {| has_mmpose := false; bound := [] |}
  else if negb mmpose_found
       then {| has_mmpose := false; bound := ["digit_version"] |}
       else if negb apis_found
            then {| has_mmpose := false;
                    bound := ["digit_version"; "mmpose_version"] |}
            else {| has_mmpose := true;
                    bound := ["digit_version"; "mmpose_version";
                              "inference_top_down_pose_model";
                              "init_pose_model"] |}.

(** Reading a global name. *)
Definition name_of {A} (g : globals) (name : string) (value : A) : result A :=
  if bool_decide (name ∈ bound g) then Ok value else Raise (NameError name).

(** Comparison of tuples of integers, [a <= b]. *)
Fixpoint tuple_le (a b : list nat) : bool :=
  match a, b with
  | [], _ => true
  | _ :: _, [] => false
  | x :: a', y :: b' =>
      if x <? y then true else if y <? x then false else tuple_le a' b'
  end.

(** [MMposeTopDownEstimator.__init__]; the log is the list of errors
    logged. *)
Definition init (g : globals) (mmpose_kwargs : kwargs) (bbox_thr : fval)
  : result MMposeTopDownEstimator * list log_event :=
  match name_of g "init_pose_model" init_pose_model with
  | Raise e => (Raise e, [])
  | Ok init_model =>
      let pose_model := init_model mmpose_kwargs in
      if negb (has_mmpose g)
      then (Raise ModuleNotFoundError, [LogError "import_exception"])
      else
        match name_of g "digit_version" digit_version,
              name_of g "mmpose_version" mmpose_version with
        | Ok dv, Ok version =>
            (Ok {| pose_model := pose_model; batch_size := 1;
                   bbox_thr := bbox_thr;
                   use_old_api := tuple_le (dv version) (dv "0.13.0") |}, [])
        | Raise e, _ => (Raise e, [])
        | _, Raise e => (Raise e, [])
        end
  end.

(** [get_keypoints_convention_name] *)
Definition get_keypoints_convention_name (self : MMposeTopDownEstimator)
  : result string :=
  translate_data_source (dataset_type (pose_model self)).

(** *** [infer_array] *)

(** [range(0, stop, step)] *)
Definition range_step (stop step : nat) : result (list nat) :=
  if step =? 0 then Raise ValueError
  else Ok (map (fun i => i * step) (seq 0 ((stop + step - 1) / step))).

Definition bind_result {A B} (r : result A) (k : A -> result B) : result B :=
  match r with
  | Ok a => k a
  | Raise e => Raise e
  end.

(** [x[i]] on a list *)
Definition at_index {A} (l : list A) (i : nat) : result A :=
  match l !! i with
  | Some x => Ok x
  | None => Raise IndexError
  end.

(** The inner loop over the frames of one batch: [person_results] ends as
    the bboxes of the last frame of the batch. *)
Fixpoint last_person_results (bbox_list : list (list bbox))
    (frames : list nat) (person_results : list bbox)
  : result (list bbox) :=
  match frames with
  | [] => Ok person_results
  | frame_index :: rest =>
      bind_result (at_index bbox_list frame_index) (fun bboxes_in_frame =>
        last_person_results bbox_list rest bboxes_in_frame)
  end.

Definition outputs : Type :=
  (list (list human) * list heatmap * list (list bbox))%type.

(** One turn of the loop over the batches. *)
Definition infer_batch (self : MMposeTopDownEstimator)
    (image_array : list image) (bbox_list : list (list bbox))
    (return_heatmap return_bbox : bool) (start_index : nat) (acc : outputs)
  : result outputs :=
  let '(ret_pose_list, ret_heatmap_list, ret_bbox_list) := acc in
  let n_frame := length image_array in
  let end_index := min n_frame (start_index + batch_size self) in
  bind_result (at_index image_array start_index) (fun img_arr =>
  bind_result (last_person_results bbox_list
                 (seq start_index (end_index - start_index)) [])
    (fun person_results =>
  let keyword := if negb (use_old_api self) then imgs_or_paths
                 else img_or_path in
  let '(pose_results, returned_outputs) :=
    inference_top_down_pose_model (pose_model self) person_results
      (bbox_thr self) "xyxy" (dataset_type (pose_model self))
      return_heatmap keyword img_arr in
  Ok (ret_pose_list ++ [map pr_keypoints pose_results],
      if return_heatmap then ret_heatmap_list ++ returned_outputs
      else ret_heatmap_list,
      if return_bbox then ret_bbox_list ++ [map pr_bbox pose_results]
      else ret_bbox_list))).

Fixpoint infer_batches (self : MMposeTopDownEstimator)
    (image_array : list image) (bbox_list : list (list bbox))
    (return_heatmap return_bbox : bool) (starts : list nat) (acc : outputs)
  : result outputs :=
  match starts with
  | [] => Ok acc
  | start_index :: rest =>
      bind_result (infer_batch self image_array bbox_list return_heatmap
                     return_bbox start_index acc)
        (infer_batches self image_array bbox_list return_heatmap
           return_bbox rest)
  end.

(** [infer_array]; [disable_tqdm] only hides the progress bar. *)
Definition infer_array (self : MMposeTopDownEstimator)
    (image_array : list image) (bbox_list : list (list bbox))
    (return_heatmap return_bbox : bool) : result outputs :=
  bind_result (range_step (length image_array) (batch_size self))
    (fun starts =>
       infer_batches self image_array bbox_list return_heatmap return_bbox
         starts ([], [], [])).

(** *** [get_keypoints_from_result] *)

(** [max] of a non-empty list of lengths. *)
Definition py_max (l : list nat) : nat := foldr Nat.max 0 l.

(** The loop that looks for the first frame with a human in it:
    [n_keypoints] is bound only if there is one. *)
Fixpoint first_n_keypoints (kps2d_list : list (list human)) : option nat :=
  match kps2d_list with
  | [] => None
  | human_list :: rest =>
      match human_list with
      | first :: _ => Some (length first)
      | [] => first_n_keypoints rest
      end
  end.

Definition arrays : Type :=
  (list (list (list keypoint)) * list (list (list nat)))%type.

(** [mask_arr[f_idx, ...] = v] *)
Definition fill_frame (v f_idx : nat) : StateErr arrays unit :=
  fun '(kps2d_arr, mask_arr) =>
    match mask_arr !! f_idx with
    | Some frame =>
        (Ok tt, (kps2d_arr,
                 <[f_idx := map (map (fun _ => v)) frame]> mask_arr))
    | None => (Raise IndexError, (kps2d_arr, mask_arr))
    end.

(** [mask_arr[f_idx, h_idx, ...] = v] *)
Definition fill_human (v f_idx h_idx : nat) : StateErr arrays unit :=
  fun '(kps2d_arr, mask_arr) =>
    match mask_arr !! f_idx with
    | Some frame =>
        match frame !! h_idx with
        | Some row =>
            (Ok tt, (kps2d_arr,
                     <[f_idx := <[h_idx := map (fun _ => v) row]> frame]>
                       mask_arr))
        | None => (Raise IndexError, (kps2d_arr, mask_arr))
        end
    | None => (Raise IndexError, (kps2d_arr, mask_arr))
    end.

(** numpy's broadcasting of a block of keypoints to [n] keypoints: a block
    of [n] is taken as it is, a block of one keypoint is repeated, anything
    else is a ValueError. *)
Definition broadcast_to (n : nat) (value : human) : result human :=
  if length value =? n then Ok value
  else match value with
       | [x] => Ok (replicate n x)
       | _ => Raise ValueError
       end.

(** [kps2d_arr[f_idx, h_idx, :, :] = value] *)
Definition assign_human (f_idx h_idx : nat) (value : human)
  : StateErr arrays unit :=
  fun '(kps2d_arr, mask_arr) =>
    match kps2d_arr !! f_idx with
    | Some frame =>
        match frame !! h_idx with
        | Some row =>
            match broadcast_to (length row) value with
            | Ok new_row =>
                (Ok tt, (<[f_idx := <[h_idx := new_row]> frame]> kps2d_arr,
                         mask_arr))
            | Raise e => (Raise e, (kps2d_arr, mask_arr))
            end
        | None => (Raise IndexError, (kps2d_arr, mask_arr))
        end
    | None => (Raise IndexError, (kps2d_arr, mask_arr))
    end.

(** The body of the loop over the humans of one frame. *)
Definition place_human (human_list : list human) (f_idx h_idx : nat)
  : StateErr arrays unit :=
  if h_idx <? length human_list then
    fill_human 1 f_idx h_idx ;;;
    value <- of_result (at_index human_list h_idx) ;;
    assign_human f_idx h_idx value
  else fill_human 0 f_idx h_idx.

(** The body of the loop over the frames. *)
Definition place_frame (kps2d_list : list (list human)) (n_human f_idx : nat)
  : StateErr arrays unit :=
  human_list <- of_result (at_index kps2d_list f_idx) ;;
  if length human_list <=? 0 then fill_frame 0 f_idx
  else for_each (seq 0 n_human) (place_human human_list f_idx).

Definition get_keypoints_from_result (self : MMposeTopDownEstimator)
    (kps2d_list : list (list human)) : result (option Keypoints) :=
  let n_frame := length kps2d_list in
  let human_count_list := map length kps2d_list in
  let n_human :=
    if 0 <? length human_count_list then py_max human_count_list else 0 in
  if 0 <? n_human then
    match first_n_keypoints kps2d_list with
    | None => Raise (NameError "n_keypoints")
    | Some n_keypoints =>
        let kps2d_arr :=
          replicate n_frame
            (replicate n_human (replicate n_keypoints zero_keypoint)) in
        let mask_arr :=
          replicate n_frame (replicate n_human (replicate n_keypoints 1)) in
        match for_each (seq 0 n_frame) (place_frame kps2d_list n_human)
                (kps2d_arr, mask_arr) with
        | (Raise e, _) => Raise e
        | (Ok _, (kps2d_arr, mask_arr)) =>
            bind_result (get_keypoints_convention_name self)
              (fun name =>
                 Ok (Some {| kps := kps2d_arr; mask := mask_arr;
                             convention := name |}))
        end
    end
  else Ok None.

End Estimator.

End estimator.

Module toy_mmpose.

(** A model that returns, for each bbox, its corners as two keypoints. *)
Definition keypoints_of (b : list fval) : list (fval * fval * fval) :=
  [(nth 0 b NaN, nth 1 b NaN, nth 4 b NaN);
   (nth 2 b NaN, nth 3 b NaN, nth 4 b NaN)].

#[export] Instance corners : estimator.Mmpose :=
  {| estimator.image := nat;
     estimator.heatmap := nat;
     estimator.model := string;
     estimator.kwargs := string;
     estimator.dataset_type := fun m => m;
     estimator.init_pose_model := fun k => k;
     estimator.inference_top_down_pose_model :=
       fun _ person_results _ _ _ return_heatmap _ img =>
         (map (fun b => {| estimator.pr_keypoints := keypoints_of b;
                           estimator.pr_bbox := b |}) person_results,
          if return_heatmap then [img] else []);
     estimator.digit_version := fun v =>
       if String.eqb v "0.13.0" then [0; 13; 0] else [0; 29; 0];
     estimator.mmpose_version := "0.29.0" |}.

End toy_mmpose.


(** * Properties of the estimator *)

Section EstimatorFacts.

Context {MM : estimator.Mmpose}.

(** ** Convention names *)


(** ** The constructor *)

(** X13. When every import succeeded the constructor returns an estimator
    with batch size 1. When one of them failed, it raises NameError for
    [init_pose_model], which it calls before it looks at [has_mmpose]: the
    ModuleNotFoundError that asks to install mmpose is never raised and the
    import error is never logged. *)
Theorem init_needs_the_imports mmcv_found mmpose_found apis_found kwargs thr :
  estimator.init
    (estimator.load_module mmcv_found mmpose_found apis_found) kwargs thr
  = if mmcv_found && mmpose_found && apis_found
    then (Ok {| estimator.pose_model := estimator.init_pose_model kwargs;
                estimator.batch_size := 1;
                estimator.bbox_thr := thr;
                estimator.use_old_api :=
                  estimator.tuple_le
                    (estimator.digit_version estimator.mmpose_version)
                    (estimator.digit_version "0.13.0") |}, [])
    else (Raise (estimator.NameError "init_pose_model"), []).
Proof. by destruct mmcv_found, mmpose_found, apis_found. Qed.

(** ** [infer_array] *)

(** What the model returns for frame [f]. *)
Definition frame_result (self : estimator.MMposeTopDownEstimator)
    (image_array : list estimator.image) (bbox_list : list (list (list fval)))
    (return_heatmap : bool) (f : nat)
  : list estimator.pose_result * list estimator.heatmap :=
  match image_array !! f, bbox_list !! f with
  | Some img, Some person_results =>
      estimator.inference_top_down_pose_model (estimator.pose_model self)
        person_results (estimator.bbox_thr self) "xyxy"
        (estimator.dataset_type (estimator.pose_model self))
        return_heatmap
        (if negb (estimator.use_old_api self) then estimator.imgs_or_paths
         else estimator.img_or_path)
        img
  | _, _ => ([], [])
  end.

Lemma range_step_1 n : estimator.range_step n 1 = Ok (seq 0 n).
Proof.
  unfold estimator.range_step. change (1 =? 0) with false. cbv iota.
  f_equal. rewrite Nat.add_sub, Nat.div_1_r.
  induction (seq 0 n) as [|i l IH]; [done|].
  rewrite map_cons, Nat.mul_1_r. by f_equal.
Qed.

Lemma infer_batch_1 self image_array bbox_list rh rb f acc :
  estimator.batch_size self = 1 ->
  f < length image_array -> f < length bbox_list ->
  estimator.infer_batch self image_array bbox_list rh rb f acc
  = Ok (acc.1.1 ++ [map estimator.pr_keypoints
                      (frame_result self image_array bbox_list rh f).1],
        if rh then acc.1.2 ++ (frame_result self image_array bbox_list rh f).2
        else acc.1.2,
        if rb then acc.2 ++ [map estimator.pr_bbox
                               (frame_result self image_array bbox_list rh f).1]
        else acc.2).
Proof.
  intros Hbs Hi Hb. destruct acc as [[p h] b].
  unfold estimator.infer_batch, frame_result. rewrite Hbs.
  destruct (lookup_lt_is_Some_2 image_array f Hi) as [img Himg].
  destruct (lookup_lt_is_Some_2 bbox_list f Hb) as [prs Hprs].
  unfold estimator.at_index. rewrite Himg. simpl.
  replace (min (length image_array) (f + 1) - f) with 1 by lia. simpl.
  unfold estimator.at_index. rewrite Hprs. simpl.
  by destruct (estimator.inference_top_down_pose_model _ _ _ _ _ _ _ _).
Qed.

Lemma infer_batch_short self image_array bbox_list rh rb f acc :
  estimator.batch_size self = 1 ->
  f < length image_array -> length bbox_list <= f ->
  estimator.infer_batch self image_array bbox_list rh rb f acc
  = Raise IndexError.
Proof.
  intros Hbs Hi Hb. destruct acc as [[p h] b].
  unfold estimator.infer_batch. rewrite Hbs.
  destruct (lookup_lt_is_Some_2 image_array f Hi) as [img Himg].
  unfold estimator.at_index. rewrite Himg. simpl.
  replace (min (length image_array) (f + 1) - f) with 1 by lia. simpl.
  unfold estimator.at_index. by rewrite lookup_ge_None_2.
Qed.

Lemma infer_batches_1 self image_array bbox_list rh rb m :
  estimator.batch_size self = 1 ->
  forall k acc,
    k + m <= length image_array -> k + m <= length bbox_list ->
    estimator.infer_batches self image_array bbox_list rh rb (seq k m) acc
    = Ok (acc.1.1
          ++ map (fun f => map estimator.pr_keypoints
                             (frame_result self image_array bbox_list rh f).1)
               (seq k m),
          if rh then
            acc.1.2
            ++ concat (map (fun f =>
                              (frame_result self image_array bbox_list rh f).2)
                         (seq k m))
          else acc.1.2,
          if rb then
            acc.2
            ++ map (fun f => map estimator.pr_bbox
                               (frame_result self image_array bbox_list rh f).1)
                 (seq k m)
          else acc.2).
Proof.
  intros Hbs. induction m as [|m IH]; intros k acc Hi Hb; simpl.
  - destruct acc as [[p h] b]. simpl. rewrite !app_nil_r.
    by destruct rh, rb.
  - rewrite infer_batch_1 by (done || lia). simpl.
    rewrite IH by lia. simpl.
    destruct rh, rb; by rewrite <- ?app_assoc.
Qed.

(** X14. With the batch size of 1 that the constructor sets and a bbox list
    that covers every frame, [infer_array] asks the model once per frame,
    with that frame's image and that frame's bboxes, and returns the
    answers in frame order: one list of keypoints per frame, the heatmaps of
    all frames if they were asked for, one list of bboxes per frame if they
    were asked for. *)
Theorem infer_array_goes_frame_by_frame self image_array bbox_list rh rb :
  estimator.batch_size self = 1 ->
  length image_array <= length bbox_list ->
  estimator.infer_array self image_array bbox_list rh rb
  = Ok (map (fun f => map estimator.pr_keypoints
                        (frame_result self image_array bbox_list rh f).1)
          (seq 0 (length image_array)),
        if rh then
          concat (map (fun f =>
                         (frame_result self image_array bbox_list rh f).2)
                    (seq 0 (length image_array)))
        else [],
        if rb then
          map (fun f => map estimator.pr_bbox
                          (frame_result self image_array bbox_list rh f).1)
            (seq 0 (length image_array))
        else []).
Proof.
  intros Hbs Hlen. unfold estimator.infer_array.
  rewrite Hbs, range_step_1. simpl.
  by rewrite infer_batches_1 by (done || lia).
Qed.

Lemma infer_batches_short self image_array bbox_list rh rb m :
  estimator.batch_size self = 1 ->
  forall k acc,
    k <= length bbox_list -> length bbox_list < k + m ->
    k + m <= length image_array ->
    estimator.infer_batches self image_array bbox_list rh rb (seq k m) acc
    = Raise IndexError.
Proof.
  intros Hbs. induction m as [|m IH]; intros k acc Hk Hb Hi; [lia|]. simpl.
  destruct (decide (k = length bbox_list)) as [->|Hne].
  - by rewrite infer_batch_short by (done || lia).
  - rewrite infer_batch_1 by (done || lia). simpl. apply IH; lia.
Qed.

(** X15. With batch size 1, a bbox list shorter than the frames makes
    [infer_array] raise IndexError. *)
Theorem infer_array_needs_bboxes_for_every_frame
    self image_array bbox_list rh rb :
  estimator.batch_size self = 1 ->
  length bbox_list < length image_array ->
  estimator.infer_array self image_array bbox_list rh rb = Raise IndexError.
Proof.
  intros Hbs Hlen. unfold estimator.infer_array.
  rewrite Hbs, range_step_1. simpl.
  apply infer_batches_short; (done || lia).
Qed.

Lemma infer_batches_keeps self image_array bbox_list rh rb starts :
  forall acc out,
    estimator.infer_batches self image_array bbox_list rh rb starts acc
      = Ok out ->
    (rh = false -> out.1.2 = acc.1.2) /\
    (rb = false -> out.2 = acc.2) /\
    (rb = true -> map length acc.2 = map length acc.1.1 ->
     map length out.2 = map length out.1.1).
Proof.
  induction starts as [|f starts IH]; intros acc out; simpl.
  - by intros [= <-].
  - destruct (estimator.infer_batch _ _ _ _ _ _ _) as [acc'|e] eqn:Hstep;
      [|done].
    simpl. intros Hrest. destruct (IH _ _ Hrest) as (Hh & Hb & Hal).
    destruct acc as [[p h] b].
    unfold estimator.infer_batch in Hstep.
    destruct (estimator.at_index image_array f); [|done].
    simpl in Hstep.
    destruct (estimator.last_person_results _ _ _); [|done].
    simpl in Hstep.
    destruct (estimator.inference_top_down_pose_model _ _ _ _ _ _ _ _)
      as [prs outs].
    injection Hstep as <-. simpl in *. repeat split.
    + intros ->. by rewrite Hh.
    + intros ->. by rewrite Hb.
    + intros -> Hacc. apply Hal; [done|].
      by rewrite !map_app, Hacc; simpl; rewrite !length_map.
Qed.

(** X16. Whatever the batch size, when [infer_array] returns: without
    [return_heatmap] the list of heatmaps is empty, without [return_bbox]
    the list of bboxes is empty, and with [return_bbox] the bboxes line up
    with the keypoints, entry by entry with as many persons in each. *)
Theorem infer_array_optional_outputs self image_array bbox_list rh rb out :
  estimator.infer_array self image_array bbox_list rh rb = Ok out ->
  (rh = false -> out.1.2 = []) /\
  (rb = false -> out.2 = []) /\
  (rb = true -> map length out.2 = map length out.1.1).
Proof.
  unfold estimator.infer_array.
  destruct (estimator.range_step _ _) as [starts|e]; [|done]. simpl.
  intros Hrun. destruct (infer_batches_keeps _ _ _ _ _ _ _ _ Hrun)
    as (Hh & Hb & Hal).
  repeat split; [exact Hh|exact Hb|]. intros Hrb. by apply Hal.
Qed.

End EstimatorFacts.

(** ** [get_keypoints_from_result] *)

Section KeypointsFacts.

Context {MM : estimator.Mmpose}.

Abbreviation zeros nk := (replicate nk estimator.zero_keypoint).
Abbreviation ones nk := (replicate nk 1).

(** The block of keypoints written for a human of [value]. *)
Definition placed (nk : nat) (value : list (fval * fval * fval))
  : list (fval * fval * fval) :=
  if length value =? nk then value
  else replicate nk (hd estimator.zero_keypoint value).

(** A block of keypoints that numpy can write into [nk] keypoints. *)
Definition fits (nk : nat) (value : list (fval * fval * fval)) : bool :=
  (length value =? nk) || (length value =? 1).

(** Row [h] of a frame of the two arrays when the loop is over. *)
Definition kps_row (nk : nat) (human_list : list (list (fval * fval * fval)))
    (h : nat) : list (fval * fval * fval) :=
  match human_list !! h with
  | Some value => placed nk value
  | None => zeros nk
  end.

Definition mask_row (nk : nat) (human_list : list (list (fval * fval * fval)))
    (h : nat) : list nat :=
  replicate nk (if h <? length human_list then 1 else 0).

Lemma insert_middle {A} (l1 l2 : list A) x y i :
  length l1 = i -> <[i := y]> (l1 ++ x :: l2) = l1 ++ y :: l2.
Proof.
  intros <-. rewrite insert_app_r_alt by done. by rewrite Nat.sub_diag.
Qed.

Lemma map_const_replicate {A B} (c : B) (l : list A) :
  map (fun _ => c) l = replicate (length l) c.
Proof. induction l; simpl; by f_equal. Qed.

Lemma map_seq_const {B} (f : nat -> B) (c : B) a n :
  (forall h, f h = c) -> map f (seq a n) = replicate n c.
Proof.
  intros Hf. revert a. induction n as [|n IH]; intros a; simpl; [done|].
  by rewrite Hf, IH.
Qed.

Lemma broadcast_fits nk value :
  fits nk value = true ->
  estimator.broadcast_to nk value = Ok (placed nk value).
Proof.
  unfold fits, estimator.broadcast_to, placed.
  destruct (length value =? nk); [done|]. simpl.
  destruct value as [|x [|y value]]; by try done.
Qed.

Lemma broadcast_misfit nk value :
  fits nk value = false ->
  estimator.broadcast_to nk value = Raise ValueError.
Proof.
  unfold fits, estimator.broadcast_to.
  destruct (length value =? nk); [done|]. simpl.
  destruct value as [|x [|y value]]; by try done.
Qed.

(** *** One human *)

Lemma place_human_fits human_list f h nk Kpre Kpost Mpre Mpost dk dm n :
  length Kpre = f -> length Mpre = f -> length dk = h -> length dm = h ->
  (forall value, human_list !! h = Some value -> fits nk value = true) ->
  estimator.place_human human_list f h
    (Kpre ++ (dk ++ replicate (S n) (zeros nk)) :: Kpost,
     Mpre ++ (dm ++ replicate (S n) (ones nk)) :: Mpost)
  = (Ok tt,
     (Kpre ++ (dk ++ kps_row nk human_list h :: replicate n (zeros nk))
        :: Kpost,
      Mpre ++ (dm ++ mask_row nk human_list h :: replicate n (ones nk))
        :: Mpost)).
Proof.
  intros HK HM Hdk Hdm Hfit. unfold estimator.place_human, kps_row, mask_row.
  destruct (Nat.ltb_spec h (length human_list)) as [Hlt|Hge].
  - destruct (lookup_lt_is_Some_2 human_list h Hlt) as [value Hv].
    rewrite Hv. specialize (Hfit value Hv).
    unfold bind, estimator.fill_human, of_result, estimator.at_index.
    cbn [replicate]. cbv beta iota.
    rewrite (list_lookup_middle Mpre _ _ f) by done.
    rewrite (list_lookup_middle dm _ _ h) by done.
    rewrite Hv. unfold estimator.assign_human. cbv beta iota.
    rewrite (list_lookup_middle Kpre _ _ f) by done.
    rewrite (list_lookup_middle dk _ _ h) by done.
    rewrite length_replicate, (broadcast_fits _ _ Hfit).
    rewrite !(insert_middle _ _ _ _ h) by done.
    rewrite !(insert_middle _ _ _ _ f) by done.
    by rewrite map_const_replicate, length_replicate.
  - rewrite lookup_ge_None_2 by done.
    unfold estimator.fill_human. cbn [replicate]. cbv beta iota.
    rewrite (list_lookup_middle Mpre _ _ f) by done.
    rewrite (list_lookup_middle dm _ _ h) by done.
    rewrite !(insert_middle _ _ _ _ h) by done.
    rewrite !(insert_middle _ _ _ _ f) by done.
    by rewrite map_const_replicate, length_replicate.
Qed.

Lemma place_human_misfit human_list f h nk Kpre Kpost Mpre Mpost dk dm n value :
  length Kpre = f -> length Mpre = f -> length dk = h -> length dm = h ->
  human_list !! h = Some value -> fits nk value = false ->
  fst (estimator.place_human human_list f h
         (Kpre ++ (dk ++ replicate (S n) (zeros nk)) :: Kpost,
          Mpre ++ (dm ++ replicate (S n) (ones nk)) :: Mpost))
  = Raise ValueError.
Proof.
  intros HK HM Hdk Hdm Hv Hfit. unfold estimator.place_human.
  assert (Hlt : h < length human_list) by by eapply lookup_lt_Some.
  destruct (Nat.ltb_spec h (length human_list)) as [_|]; [|lia].
  unfold bind, estimator.fill_human, of_result, estimator.at_index.
  cbn [replicate]. cbv beta iota.
  rewrite (list_lookup_middle Mpre _ _ f) by done.
  rewrite (list_lookup_middle dm _ _ h) by done.
  rewrite Hv. unfold estimator.assign_human. cbv beta iota.
  rewrite (list_lookup_middle Kpre _ _ f) by done.
  rewrite (list_lookup_middle dk _ _ h) by done.
  by rewrite length_replicate, (broadcast_misfit _ _ Hfit).
Qed.

(** *** The humans of one frame *)

Lemma humans_loop_fits human_list f nk Kpre Kpost Mpre Mpost n :
  length Kpre = f -> length Mpre = f ->
  Forall (fun value => fits nk value = true) human_list ->
  forall h dk dm,
    length dk = h -> length dm = h ->
    for_each (seq h n) (estimator.place_human human_list f)
      (Kpre ++ (dk ++ replicate n (zeros nk)) :: Kpost,
       Mpre ++ (dm ++ replicate n (ones nk)) :: Mpost)
    = (Ok tt,
       (Kpre ++ (dk ++ map (kps_row nk human_list) (seq h n)) :: Kpost,
        Mpre ++ (dm ++ map (mask_row nk human_list) (seq h n)) :: Mpost)).
Proof.
  intros HK HM Hall. induction n as [|n IH]; intros h dk dm Hdk Hdm; [done|].
  cbn [seq for_each map]. unfold bind at 1.
  rewrite (place_human_fits _ _ _ _ _ _ _ _ _ _ _ HK HM Hdk Hdm).
  2: { intros value Hv. rewrite Forall_lookup in Hall. by eapply Hall. }
  rewrite !(cons_middle _ dk), !(cons_middle _ dm), !app_assoc.
  rewrite (IH (S h)); [done|..]; rewrite length_app; simpl; lia.
Qed.

Lemma humans_loop_misfit human_list f nk Kpre Kpost Mpre Mpost n bad value :
  length Kpre = f -> length Mpre = f ->
  human_list !! bad = Some value -> fits nk value = false ->
  forall h dk dm,
    length dk = h -> length dm = h ->
    h <= bad < h + n ->
    fst (for_each (seq h n) (estimator.place_human human_list f)
           (Kpre ++ (dk ++ replicate n (zeros nk)) :: Kpost,
            Mpre ++ (dm ++ replicate n (ones nk)) :: Mpost))
    = Raise ValueError.
Proof.
  intros HK HM Hbad Hmis.
  induction n as [|n IH]; intros h dk dm Hdk Hdm Hrange; [lia|].
  cbn [seq for_each]. unfold bind at 1.
  destruct (human_list !! h) as [v|] eqn:Hv.
  - destruct (fits nk v) eqn:Hfit.
    + rewrite (place_human_fits _ _ _ _ _ _ _ _ _ _ _ HK HM Hdk Hdm).
      2: { intros v' Hv'. congruence. }
      assert (h <> bad) by (intros ->; congruence).
      rewrite !(cons_middle _ dk), !(cons_middle _ dm), !app_assoc.
      apply IH; [rewrite length_app; simpl; lia..|lia].
    + pose proof (place_human_misfit _ _ _ _ Kpre Kpost Mpre Mpost dk dm n v
                    HK HM Hdk Hdm Hv Hfit) as Hstep.
      destruct (estimator.place_human _ _ _ _) as [[[]|e] st]; simpl in *;
        congruence.
  - rewrite (place_human_fits _ _ _ _ _ _ _ _ _ _ _ HK HM Hdk Hdm).
    2: { intros v' Hv'. congruence. }
    assert (h <> bad) by (intros ->; congruence).
    rewrite !(cons_middle _ dk), !(cons_middle _ dm), !app_assoc.
    apply IH; [rewrite length_app; simpl; lia..|lia].
Qed.

(** *** One frame *)

Lemma map_replicate {A B} (g : A -> B) n x :
  map g (replicate n x) = replicate n (g x).
Proof. induction n; simpl; by f_equal. Qed.

Lemma place_frame_fits l n_human nk f human_list Kpre Kpost Mpre Mpost :
  l !! f = Some human_list ->
  length Kpre = f -> length Mpre = f ->
  Forall (fun value => fits nk value = true) human_list ->
  estimator.place_frame l n_human f
    (Kpre ++ replicate n_human (zeros nk) :: Kpost,
     Mpre ++ replicate n_human (ones nk) :: Mpost)
  = (Ok tt,
     (Kpre ++ map (kps_row nk human_list) (seq 0 n_human) :: Kpost,
      Mpre ++ map (mask_row nk human_list) (seq 0 n_human) :: Mpost)).
Proof.
  intros Hl HK HM Hall.
  unfold estimator.place_frame, bind, of_result, estimator.at_index.
  rewrite Hl. destruct human_list as [|first others].
  - change (length [] <=? 0) with true. cbv iota.
    unfold estimator.fill_frame.
    rewrite (list_lookup_middle Mpre _ _ f) by done.
    rewrite (insert_middle _ _ _ _ f) by done.
    rewrite !map_replicate.
    rewrite (map_seq_const (kps_row nk []) (zeros nk)) by done.
    by rewrite (map_seq_const (mask_row nk []) (replicate nk 0)) by done.
  - change (length (first :: others) <=? 0) with false. cbv iota.
    by apply (humans_loop_fits _ f nk Kpre Kpost Mpre Mpost n_human
                HK HM Hall 0 [] []).
Qed.

Lemma place_frame_misfit l n_human nk f human_list Kpre Kpost Mpre Mpost
    bad value :
  l !! f = Some human_list ->
  length Kpre = f -> length Mpre = f ->
  human_list !! bad = Some value -> fits nk value = false ->
  bad < n_human ->
  fst (estimator.place_frame l n_human f
         (Kpre ++ replicate n_human (zeros nk) :: Kpost,
          Mpre ++ replicate n_human (ones nk) :: Mpost))
  = Raise ValueError.
Proof.
  intros Hl HK HM Hbad Hmis Hlt.
  unfold estimator.place_frame, bind, of_result, estimator.at_index.
  rewrite Hl. destruct human_list as [|first others]; [done|].
  change (length (first :: others) <=? 0) with false. cbv iota.
  apply (humans_loop_misfit _ f nk Kpre Kpost Mpre Mpost n_human bad value
           HK HM Hbad Hmis 0 [] []); (done || lia).
Qed.

(** *** The frames *)

Lemma frames_loop_fits l n_human nk rest :
  forall seen dk dm,
    l = seen ++ rest ->
    length dk = length seen -> length dm = length seen ->
    Forall (Forall (fun value => fits nk value = true)) rest ->
    for_each (seq (length seen) (length rest))
      (estimator.place_frame l n_human)
      (dk ++ replicate (length rest) (replicate n_human (zeros nk)),
       dm ++ replicate (length rest) (replicate n_human (ones nk)))
    = (Ok tt,
       (dk ++ map (fun human_list =>
                     map (kps_row nk human_list) (seq 0 n_human)) rest,
        dm ++ map (fun human_list =>
                     map (mask_row nk human_list) (seq 0 n_human)) rest)).
Proof.
  induction rest as [|human_list rest IH]; intros seen dk dm Hl Hdk Hdm Hall;
    [done|].
  apply Forall_cons in Hall as [Hhead Hall].
  cbn [length seq for_each replicate map]. unfold bind at 1.
  rewrite (place_frame_fits l n_human nk (length seen) human_list);
    [|by rewrite Hl; apply list_lookup_middle|done|done|done].
  rewrite !(cons_middle _ dk), !(cons_middle _ dm), !app_assoc.
  replace (S (length seen)) with (length (seen ++ [human_list]))
    by (rewrite length_app; simpl; lia).
  apply IH; [by rewrite <- app_assoc|..|done];
    rewrite !length_app; simpl; lia.
Qed.

Lemma frames_loop_misfit l n_human nk rest :
  forall seen dk dm,
    l = seen ++ rest ->
    length dk = length seen -> length dm = length seen ->
    Forall (fun human_list => length human_list <= n_human) rest ->
    ~ Forall (Forall (fun value => fits nk value = true)) rest ->
    fst (for_each (seq (length seen) (length rest))
           (estimator.place_frame l n_human)
           (dk ++ replicate (length rest) (replicate n_human (zeros nk)),
            dm ++ replicate (length rest) (replicate n_human (ones nk))))
    = Raise ValueError.
Proof.
  induction rest as [|human_list rest IH];
    intros seen dk dm Hl Hdk Hdm Hlen Hnot.
  - destruct Hnot. constructor.
  - apply Forall_cons in Hlen as [Hhead Hlen].
    cbn [length seq for_each replicate]. unfold bind at 1.
    destruct (decide (Forall (fun value => fits nk value = true) human_list))
      as [Hfits|Hmis].
    + rewrite (place_frame_fits l n_human nk (length seen) human_list);
        [|by rewrite Hl; apply list_lookup_middle|done|done|done].
      rewrite !(cons_middle _ dk), !(cons_middle _ dm), !app_assoc.
      replace (S (length seen)) with (length (seen ++ [human_list]))
        by (rewrite length_app; simpl; lia).
      apply IH; [by rewrite <- app_assoc|..|done|];
        [rewrite !length_app; simpl; lia..|].
      intros Hrest. apply Hnot. by constructor.
    + apply not_Forall_Exists in Hmis; [|apply _].
      apply Exists_exists in Hmis as (value & Hin & Hfit).
      apply list_elem_of_lookup_1 in Hin as [bad Hbad].
      apply not_true_is_false in Hfit.
      pose proof (lookup_lt_Some _ _ _ Hbad) as Hlt.
      assert (Hstep : fst (estimator.place_frame l n_human (length seen)
                (dk ++ replicate n_human (zeros nk)
                    :: replicate (length rest) (replicate n_human (zeros nk)),
                 dm ++ replicate n_human (ones nk)
                    :: replicate (length rest) (replicate n_human (ones nk))))
              = Raise ValueError).
      { apply (place_frame_misfit l n_human nk (length seen) human_list
                 _ _ _ _ bad value); [|done|done|done|done|lia].
        rewrite Hl. by apply list_lookup_middle. }
      destruct (estimator.place_frame _ _ _ _) as [[[]|e] st];
        simpl in Hstep; [discriminate Hstep|exact Hstep].
Qed.

(** *** The whole list *)

Lemma py_max_ge l x : x ∈ l -> x <= estimator.py_max l.
Proof. induction 1; simpl; lia. Qed.

Lemma py_max_zero {A} (l : list (list A)) :
  estimator.py_max (map length l) = 0 <-> Forall (fun hl => hl = []) l.
Proof.
  induction l as [|hl l IH]; simpl; [by split; [constructor|]|].
  rewrite Forall_cons, <- IH. split.
  - intros Hmax. split; [apply length_zero_iff_nil|]; lia.
  - intros [-> ->]. done.
Qed.

Lemma first_n_keypoints_None l :
  estimator.first_n_keypoints l = None <-> Forall (fun hl => hl = []) l.
Proof.
  induction l as [|hl l IH]; simpl; [by split; [constructor|]|].
  rewrite Forall_cons. destruct hl as [|first others].
  - rewrite IH. by split; [|intros [_ ?]].
  - by split; [|intros [? _]].
Qed.

Lemma frame_le_py_max {A} (l : list (list A)) :
  Forall (fun hl => length hl <= estimator.py_max (map length l)) l.
Proof.
  apply Forall_forall. intros hl Hin. apply py_max_ge.
  apply list_elem_of_In, in_map, list_elem_of_In, Hin.
Qed.

Lemma get_keypoints_unfold self l :
  estimator.get_keypoints_from_result self l
  = if 0 <? estimator.py_max (map length l) then
      match estimator.first_n_keypoints l with
      | None => Raise (estimator.NameError "n_keypoints")
      | Some nk =>
          match for_each (seq 0 (length l))
                  (estimator.place_frame l (estimator.py_max (map length l)))
                  (replicate (length l)
                     (replicate (estimator.py_max (map length l)) (zeros nk)),
                   replicate (length l)
                     (replicate (estimator.py_max (map length l)) (ones nk)))
          with
          | (Raise e, _) => Raise e
          | (Ok _, (kps2d_arr, mask_arr)) =>
              estimator.bind_result
                (estimator.get_keypoints_convention_name self)
                (fun name =>
                   Ok (Some {| estimator.kps := kps2d_arr;
                               estimator.mask := mask_arr;
                               estimator.convention := name |}))
          end
      end
    else Ok None.
Proof. unfold estimator.get_keypoints_from_result. by destruct l. Qed.

(** The arrays when the loops are over. *)
Definition kps_of (nk : nat) (l : list (list (list (fval * fval * fval))))
  : list (list (list (fval * fval * fval))) :=
  map (fun hl => map (kps_row nk hl) (seq 0 (estimator.py_max (map length l))))
    l.

Definition mask_of_humans (nk : nat)
    (l : list (list (list (fval * fval * fval)))) : list (list (list nat)) :=
  map (fun hl => map (mask_row nk hl) (seq 0 (estimator.py_max (map length l))))
    l.

Lemma get_keypoints_none self l :
  Forall (fun hl => hl = []) l ->
  estimator.get_keypoints_from_result self l = Ok None.
Proof.
  intros Hall. rewrite get_keypoints_unfold.
  by rewrite (proj2 (py_max_zero l) Hall).
Qed.

Lemma some_human_counted l nk :
  estimator.first_n_keypoints l = Some nk ->
  (0 <? estimator.py_max (map length l)) = true.
Proof.
  intros Hfirst. apply Nat.ltb_lt.
  destruct (estimator.py_max (map length l)) eqn:Hmax; [|lia].
  apply py_max_zero, first_n_keypoints_None in Hmax. congruence.
Qed.

Lemma get_keypoints_fits self l nk :
  estimator.first_n_keypoints l = Some nk ->
  Forall (Forall (fun value => fits nk value = true)) l ->
  estimator.get_keypoints_from_result self l
  = estimator.bind_result (estimator.get_keypoints_convention_name self)
      (fun name =>
         Ok (Some {| estimator.kps := kps_of nk l;
                     estimator.mask := mask_of_humans nk l;
                     estimator.convention := name |})).
Proof.
  intros Hfirst Hall. rewrite get_keypoints_unfold.
  rewrite (some_human_counted _ _ Hfirst), Hfirst.
  pose proof (frames_loop_fits l (estimator.py_max (map length l)) nk l
                [] [] [] eq_refl eq_refl eq_refl Hall) as Hloop.
  cbn [length app] in Hloop. by rewrite Hloop.
Qed.

Lemma get_keypoints_misfit self l nk :
  estimator.first_n_keypoints l = Some nk ->
  ~ Forall (Forall (fun value => fits nk value = true)) l ->
  estimator.get_keypoints_from_result self l = Raise ValueError.
Proof.
  intros Hfirst Hnot. rewrite get_keypoints_unfold.
  rewrite (some_human_counted _ _ Hfirst), Hfirst.
  pose proof (frames_loop_misfit l (estimator.py_max (map length l)) nk l
                [] [] [] eq_refl eq_refl eq_refl (frame_le_py_max l) Hnot)
    as Hloop.
  cbn [length app] in Hloop.
  destruct (for_each _ _ _) as [[[]|e] st]; simpl in Hloop; [done|].
  by injection Hloop as ->.
Qed.

Lemma get_keypoints_Some self l k :
  estimator.get_keypoints_from_result self l = Ok (Some k) ->
  exists nk,
    estimator.first_n_keypoints l = Some nk /\
    Forall (Forall (fun value => fits nk value = true)) l /\
    estimator.get_keypoints_convention_name self
      = Ok (estimator.convention k) /\
    estimator.kps k = kps_of nk l /\
    estimator.mask k = mask_of_humans nk l.
Proof.
  intros Hrun.
  destruct (estimator.first_n_keypoints l) as [nk|] eqn:Hfirst.
  - exists nk.
    destruct (decide (Forall (Forall (fun value => fits nk value = true)) l))
      as [Hall|Hnot].
    + rewrite (get_keypoints_fits _ _ _ Hfirst Hall) in Hrun.
      destruct (estimator.get_keypoints_convention_name self) as [name|e];
        [|done].
      simpl in Hrun. by injection Hrun as <-.
    + by rewrite (get_keypoints_misfit _ _ _ Hfirst Hnot) in Hrun.
  - apply first_n_keypoints_None in Hfirst.
    by rewrite (get_keypoints_none _ _ Hfirst) in Hrun.
Qed.

(** Entry [arr[f, h]] of an array. *)
Definition stored {A} (arr : list (list A)) (f h : nat) : option A :=
  match arr !! f with
  | Some frame => frame !! h
  | None => None
  end.

Lemma lookup_map {A B} (g : A -> B) l i : map g l !! i = g <$> l !! i.
Proof. revert i. induction l; intros [|i]; simpl; auto. Qed.

Lemma stored_rows {A} (g : list (list (fval * fval * fval)) -> nat -> A)
    (l : list (list (list (fval * fval * fval)))) nh f hl h :
  l !! f = Some hl -> h < nh ->
  stored (map (fun hl => map (g hl) (seq 0 nh)) l) f h = Some (g hl h).
Proof.
  intros Hf Hh. unfold stored. rewrite lookup_map, Hf. simpl.
  by rewrite lookup_map, lookup_seq_lt.
Qed.

Lemma fits_spec nk value :
  fits nk value = true <-> length value = nk \/ length value = 1.
Proof.
  unfold fits. rewrite orb_true_iff, !Nat.eqb_eq. done.
Qed.

Lemma length_placed nk value : length (placed nk value) = nk.
Proof.
  unfold placed. destruct (Nat.eqb_spec (length value) nk); [done|].
  by rewrite length_replicate.
Qed.

(** X17. [get_keypoints_from_result] returns None exactly when no frame has
    a human in it. The dataset type of the model is not looked at then. *)
Theorem no_keypoints_iff_no_human self l :
  estimator.get_keypoints_from_result self l = Ok None
  <-> Forall (fun human_list => human_list = []) l.
Proof.
  split; [|apply get_keypoints_none].
  intros Hrun.
  destruct (estimator.first_n_keypoints l) as [nk|] eqn:Hfirst;
    [|by apply first_n_keypoints_None].
  exfalso.
  destruct (decide (Forall (Forall (fun value => fits nk value = true)) l))
    as [Hall|Hnot].
  - rewrite (get_keypoints_fits _ _ _ Hfirst Hall) in Hrun.
    by destruct (estimator.get_keypoints_convention_name self).
  - by rewrite (get_keypoints_misfit _ _ _ Hfirst Hnot) in Hrun.
Qed.

(** X18. The arrays of the Keypoints that is returned have one entry per
    frame, in each frame as many humans as the fullest frame has, for each
    human as many keypoints as the first human of the first frame that is
    not empty; the convention is the one of the model's dataset type. *)
Theorem keypoints_arrays_shape self l k :
  estimator.get_keypoints_from_result self l = Ok (Some k) ->
  exists n_keypoints,
    estimator.first_n_keypoints l = Some n_keypoints /\
    0 < estimator.py_max (map length l) /\
    length (estimator.kps k) = length l /\
    length (estimator.mask k) = length l /\
    Forall (fun frame =>
              length frame = estimator.py_max (map length l) /\
              Forall (fun row => length row = n_keypoints) frame)
      (estimator.kps k) /\
    Forall (fun frame =>
              length frame = estimator.py_max (map length l) /\
              Forall (fun row => length row = n_keypoints) frame)
      (estimator.mask k) /\
    estimator.translate_data_source
      (estimator.dataset_type (estimator.pose_model self))
    = Ok (estimator.convention k).
Proof.
  intros Hrun.
  destruct (get_keypoints_Some _ _ _ Hrun)
    as (nk & Hfirst & Hall & Hname & -> & ->).
  exists nk. split; [done|].
  split; [by apply Nat.ltb_lt, (some_human_counted _ nk)|].
  unfold kps_of, mask_of_humans. rewrite !length_map.
  repeat split; try done.
  - apply Forall_forall. intros frame Hin.
    apply list_elem_of_In, in_map_iff in Hin as (hl & <- & _).
    rewrite length_map, length_seq. split; [done|].
    apply Forall_forall. intros row Hrow.
    apply list_elem_of_In, in_map_iff in Hrow as (h & <- & _).
    unfold kps_row. destruct (hl !! h); [apply length_placed|].
    by rewrite length_replicate.
  - apply Forall_forall. intros frame Hin.
    apply list_elem_of_In, in_map_iff in Hin as (hl & <- & _).
    rewrite length_map, length_seq. split; [done|].
    apply Forall_forall. intros row Hrow.
    apply list_elem_of_In, in_map_iff in Hrow as (h & <- & _).
    unfold mask_row. by rewrite length_replicate.
Qed.

(** X19. In the Keypoints that is returned, a human that was detected has
    its mask row set to 1; its keypoints are stored as they are when it has
    [n_keypoints] of them, and a human given by a single keypoint has that
    keypoint repeated [n_keypoints] times. *)
Theorem detected_human_is_stored self l k n_keypoints f human_list h value :
  estimator.get_keypoints_from_result self l = Ok (Some k) ->
  estimator.first_n_keypoints l = Some n_keypoints ->
  l !! f = Some human_list -> human_list !! h = Some value ->
  stored (estimator.mask k) f h = Some (replicate n_keypoints 1) /\
  (length value = n_keypoints -> stored (estimator.kps k) f h = Some value) /\
  (forall x, value = [x] ->
     stored (estimator.kps k) f h = Some (replicate n_keypoints x)).
Proof.
  intros Hrun Hfirst Hf Hh.
  destruct (get_keypoints_Some _ _ _ Hrun)
    as (nk & Hfirst' & Hall & Hname & -> & ->).
  assert (nk = n_keypoints) as -> by congruence.
  pose proof (lookup_lt_Some _ _ _ Hh) as Hlt.
  assert (Hmax : h < estimator.py_max (map length l)).
  { pose proof (frame_le_py_max l) as Hle. rewrite Forall_lookup in Hle.
    specialize (Hle _ _ Hf). simpl in Hle. lia. }
  unfold kps_of, mask_of_humans.
  rewrite (stored_rows (mask_row n_keypoints) l _ f human_list h Hf Hmax).
  rewrite (stored_rows (kps_row n_keypoints) l _ f human_list h Hf Hmax).
  unfold mask_row, kps_row, placed. rewrite Hh.
  destruct (Nat.ltb_spec h (length human_list)); [|lia].
  split; [done|]. split.
  - intros Hlen. by rewrite (proj2 (Nat.eqb_eq _ _) Hlen).
  - intros x ->. simpl. by destruct n_keypoints as [|[|n]].
Qed.

(** X20. In the Keypoints that is returned, the rows of a frame past the
    humans that were detected in it are all zero, in the keypoints and in
    the mask. *)
Theorem missing_human_is_padded self l k n_keypoints f human_list h :
  estimator.get_keypoints_from_result self l = Ok (Some k) ->
  estimator.first_n_keypoints l = Some n_keypoints ->
  l !! f = Some human_list ->
  length human_list <= h < estimator.py_max (map length l) ->
  stored (estimator.kps k) f h
    = Some (replicate n_keypoints estimator.zero_keypoint) /\
  stored (estimator.mask k) f h = Some (replicate n_keypoints 0).
Proof.
  intros Hrun Hfirst Hf [Hge Hmax].
  destruct (get_keypoints_Some _ _ _ Hrun)
    as (nk & Hfirst' & Hall & Hname & -> & ->).
  assert (nk = n_keypoints) as -> by congruence.
  unfold kps_of, mask_of_humans.
  rewrite (stored_rows (mask_row n_keypoints) l _ f human_list h Hf Hmax).
  rewrite (stored_rows (kps_row n_keypoints) l _ f human_list h Hf Hmax).
  unfold mask_row, kps_row. rewrite lookup_ge_None_2 by done.
  by destruct (Nat.ltb_spec h (length human_list)); [lia|].
Qed.

(** X21. A human whose number of keypoints is neither [n_keypoints], the
    number the first human has, nor 1 makes [get_keypoints_from_result]
    raise ValueError, whatever the dataset type of the model. *)
Theorem ragged_human_raises self l n_keypoints f human_list h value :
  estimator.first_n_keypoints l = Some n_keypoints ->
  l !! f = Some human_list -> human_list !! h = Some value ->
  length value <> n_keypoints -> length value <> 1 ->
  estimator.get_keypoints_from_result self l = Raise ValueError.
Proof.
  intros Hfirst Hf Hh Hnk H1.
  apply (get_keypoints_misfit _ _ _ Hfirst).
  intros Hall. rewrite Forall_lookup in Hall.
  specialize (Hall _ _ Hf). rewrite Forall_lookup in Hall.
  specialize (Hall _ _ Hh). simpl in Hall.
  apply fits_spec in Hall. lia.
Qed.



(** X24. The keypoints that [infer_array] returns with batch size 1, given
    to [get_keypoints_from_result], make arrays with one entry for each
    image. *)
Theorem keypoints_of_inferred_frames self image_array bbox_list rh rb out k :
  estimator.batch_size self = 1 ->
  estimator.infer_array self image_array bbox_list rh rb = Ok out ->
  estimator.get_keypoints_from_result self out.1.1 = Ok (Some k) ->
  length (estimator.kps k) = length image_array /\
  length (estimator.mask k) = length image_array.
Proof.
  intros Hbs Hinfer Hrun.
  destruct (get_keypoints_Some _ _ _ Hrun) as (nk & _ & _ & _ & -> & ->).
  unfold kps_of, mask_of_humans. rewrite !length_map.
  unfold estimator.infer_array in Hinfer.
  rewrite Hbs, range_step_1 in Hinfer. simpl in Hinfer.
  destruct (Nat.le_gt_cases (length image_array) (length bbox_list))
    as [Hle|Hgt].
  - rewrite infer_batches_1 in Hinfer by (done || lia).
    injection Hinfer as <-. simpl. by rewrite length_map, length_seq.
  - rewrite infer_batches_short in Hinfer by (done || lia). done.
Qed.

End KeypointsFacts.

(** * Runs of the estimator *)

Module frames.

Definition coco : @estimator.model toy_mmpose.corners :=
  ("TopDownCocoWholeBodyDataset" : string).


Definition self : estimator.MMposeTopDownEstimator :=
  {| estimator.pose_model := coco; estimator.batch_size := 1;
     estimator.bbox_thr := Num 0; estimator.use_old_api := false |}.


(** Three images; two persons in the first, nobody in the second, one
    person in the third. *)
Definition images : list (@estimator.image toy_mmpose.corners) :=
  [10; 11; 12].

Definition b1 : list fval := [Num 0; Num 1; Num 2; Num 3; Num (9 # 10)].
Definition b2 : list fval := [Num 4; Num 5; Num 6; Num 7; Num (8 # 10)].
Definition b3 : list fval := [Num 1; Num 1; Num 5; Num 5; Num (7 # 10)].

Definition bboxes : list (list (list fval)) := [[b1; b2]; []; [b3]].

Definition inferred : list (list (list (fval * fval * fval))) :=
  [[toy_mmpose.keypoints_of b1; toy_mmpose.keypoints_of b2];
   [];
   [toy_mmpose.keypoints_of b3]].

(** What is made of them. *)
Definition inferred_keypoints : estimator.Keypoints :=
  {| estimator.kps :=
       [[toy_mmpose.keypoints_of b1; toy_mmpose.keypoints_of b2];
        [[estimator.zero_keypoint; estimator.zero_keypoint];
         [estimator.zero_keypoint; estimator.zero_keypoint]];
        [toy_mmpose.keypoints_of b3;
         [estimator.zero_keypoint; estimator.zero_keypoint]]];
     estimator.mask :=
       [[[1; 1]; [1; 1]]; [[0; 0]; [0; 0]]; [[1; 1]; [0; 0]]];
     estimator.convention := "coco_wholebody" |}.

(** Keypoints of three frames, where the second human of the first frame
    is given by one keypoint. *)
Definition p (x y : Q) : fval * fval * fval := (Num x, Num y, Num 1).

Definition detected : list (list (list (fval * fval * fval))) :=
  [[[p 1 2; p 3 4]; [p 5 6]]; []; [[p 7 8; p 9 10]]].

Definition keypoints2d : estimator.Keypoints :=
  {| estimator.kps :=
       [[[p 1 2; p 3 4]; [p 5 6; p 5 6]];
        [[estimator.zero_keypoint; estimator.zero_keypoint];
         [estimator.zero_keypoint; estimator.zero_keypoint]];
        [[p 7 8; p 9 10];
         [estimator.zero_keypoint; estimator.zero_keypoint]]];
     estimator.mask :=
       [[[1; 1]; [1; 1]]; [[0; 0]; [0; 0]]; [[1; 1]; [0; 0]]];
     estimator.convention := "coco_wholebody" |}.

(** One frame whose second human has three keypoints. *)
Definition ragged : list (list (list (fval * fval * fval))) :=
  [[[p 1 2; p 3 4]; [p 5 6; p 7 8; p 9 10]]].

End frames.

(** The run of X14 on the three images, heatmaps and bboxes asked for. *)
Lemma infer_array_goes_frame_by_frame_witness :
  estimator.infer_array frames.self frames.images frames.bboxes true true
  = Ok (frames.inferred, [10; 11; 12], frames.bboxes).
Proof.
  exact (infer_array_goes_frame_by_frame (MM:=toy_mmpose.corners)
           frames.self frames.images frames.bboxes true true
           ltac:(reflexivity) ltac:(vm_compute; lia)).
Defined.

(** The run of X15 with the bboxes of the first two images only. *)
Lemma infer_array_needs_bboxes_for_every_frame_witness :
  estimator.infer_array frames.self frames.images (take 2 frames.bboxes)
    false false
  = Raise IndexError.
Proof.
  exact (infer_array_needs_bboxes_for_every_frame (MM:=toy_mmpose.corners)
           frames.self frames.images (take 2 frames.bboxes) false false
           ltac:(reflexivity) ltac:(vm_compute; lia)).
Defined.

(** The run of X16: bboxes asked for, heatmaps not. *)
Lemma infer_array_optional_outputs_witness :
  (false = false -> @nil nat = []) /\
  (true = false -> frames.bboxes = []) /\
  (true = true -> map length frames.bboxes = map length frames.inferred).
Proof.
  exact (infer_array_optional_outputs (MM:=toy_mmpose.corners)
           frames.self frames.images frames.bboxes false true
           (frames.inferred, [], frames.bboxes)
           ltac:(vm_compute; reflexivity)).
Defined.

(** The run of X18 on the three frames. *)
Lemma keypoints_arrays_shape_witness :
  exists n_keypoints,
    estimator.first_n_keypoints frames.detected = Some n_keypoints /\
    0 < estimator.py_max (map length frames.detected) /\
    length (estimator.kps frames.keypoints2d) = length frames.detected /\
    length (estimator.mask frames.keypoints2d) = length frames.detected /\
    Forall (fun frame =>
              length frame = estimator.py_max (map length frames.detected) /\
              Forall (fun row => length row = n_keypoints) frame)
      (estimator.kps frames.keypoints2d) /\
    Forall (fun frame =>
              length frame = estimator.py_max (map length frames.detected) /\
              Forall (fun row => length row = n_keypoints) frame)
      (estimator.mask frames.keypoints2d) /\
    estimator.translate_data_source
      (estimator.dataset_type (estimator.pose_model frames.self))
    = Ok (estimator.convention frames.keypoints2d).
Proof.
  exact (keypoints_arrays_shape (MM:=toy_mmpose.corners)
           frames.self frames.detected frames.keypoints2d
           ltac:(vm_compute; reflexivity)).
Defined.

(** The run of X19 at the second human of the first frame, who has one
    keypoint. *)
Lemma detected_human_is_stored_witness :
  stored (estimator.mask frames.keypoints2d) 0 1 = Some [1; 1] /\
  (length [frames.p 5 6] = 2 ->
   stored (estimator.kps frames.keypoints2d) 0 1 = Some [frames.p 5 6]) /\
  (forall x, [frames.p 5 6] = [x] ->
     stored (estimator.kps frames.keypoints2d) 0 1 = Some [x; x]).
Proof.
  exact (detected_human_is_stored (MM:=toy_mmpose.corners)
           frames.self frames.detected frames.keypoints2d 2 0
           [[frames.p 1 2; frames.p 3 4]; [frames.p 5 6]] 1 [frames.p 5 6]
           ltac:(vm_compute; reflexivity) ltac:(reflexivity)
           ltac:(reflexivity) ltac:(reflexivity)).
Defined.

(** The run of X20 at the second row of the third frame. *)
Lemma missing_human_is_padded_witness :
  stored (estimator.kps frames.keypoints2d) 2 1
    = Some [estimator.zero_keypoint; estimator.zero_keypoint] /\
  stored (estimator.mask frames.keypoints2d) 2 1 = Some [0; 0].
Proof.
  exact (missing_human_is_padded (MM:=toy_mmpose.corners)
           frames.self frames.detected frames.keypoints2d 2 2
           [[frames.p 7 8; frames.p 9 10]] 1
           ltac:(vm_compute; reflexivity) ltac:(reflexivity)
           ltac:(reflexivity) ltac:(vm_compute; lia)).
Defined.

(** The run of X21 on the frame with a human of three keypoints. *)
Lemma ragged_human_raises_witness :
  estimator.get_keypoints_from_result frames.self frames.ragged
  = Raise ValueError.
Proof.
  exact (ragged_human_raises (MM:=toy_mmpose.corners)
           frames.self frames.ragged 2 0
           [[frames.p 1 2; frames.p 3 4];
            [frames.p 5 6; frames.p 7 8; frames.p 9 10]] 1
           [frames.p 5 6; frames.p 7 8; frames.p 9 10]
           ltac:(reflexivity) ltac:(reflexivity) ltac:(reflexivity)
           ltac:(simpl; lia) ltac:(simpl; lia)).
Defined.



(** The run of X24 on the three images. *)
Lemma keypoints_of_inferred_frames_witness :
  length (estimator.kps frames.inferred_keypoints) = length frames.images /\
  length (estimator.mask frames.inferred_keypoints) = length frames.images.
Proof.
  exact (keypoints_of_inferred_frames (MM:=toy_mmpose.corners)
           frames.self frames.images frames.bboxes false false
           (frames.inferred, [], []) frames.inferred_keypoints
           ltac:(reflexivity) ltac:(vm_compute; reflexivity)
           ltac:(vm_compute; reflexivity)).
Defined.

(** * Batches of more than one frame *)

Section BatchFacts.

Context {MM : estimator.Mmpose}.

(** What the model returns for the batch that starts at frame [s]: it is
    given the image of the first frame of the batch and the bboxes of the
    last one. *)
Definition batch_result (self : estimator.MMposeTopDownEstimator)
    (image_array : list estimator.image) (bbox_list : list (list (list fval)))
    (return_heatmap : bool) (s : nat)
  : list estimator.pose_result * list estimator.heatmap :=
  match image_array !! s,
        bbox_list !! (min (length image_array) (s + estimator.batch_size self)
                      - 1) with
  | Some img, Some person_results =>
      estimator.inference_top_down_pose_model (estimator.pose_model self)
        person_results (estimator.bbox_thr self) "xyxy"
        (estimator.dataset_type (estimator.pose_model self))
        return_heatmap
        (if negb (estimator.use_old_api self) then estimator.imgs_or_paths
         else estimator.img_or_path)
        img
  | _, _ => ([], [])
  end.

Lemma last_person_results_seq (bbox_list : list (list (list fval))) m :
  forall s acc last,
    bbox_list !! (s + m) = Some last ->
    s + m < length bbox_list ->
    estimator.last_person_results bbox_list (seq s (S m)) acc = Ok last.
Proof.
  induction m as [|m IH]; intros s acc last Hlast Hlen.
  - rewrite Nat.add_0_r in Hlast. simpl.
    unfold estimator.at_index. by rewrite Hlast.
  - cbn [seq estimator.last_person_results].
    destruct (lookup_lt_is_Some_2 bbox_list s ltac:(lia)) as [x Hx].
    unfold estimator.at_index at 1. rewrite Hx. simpl.
    apply (IH (S s) x); [|lia].
    by replace (S s + m) with (s + S m) by lia.
Qed.

Lemma infer_batch_general self image_array bbox_list rh rb s acc :
  0 < estimator.batch_size self ->
  s < length image_array -> length image_array <= length bbox_list ->
  estimator.infer_batch self image_array bbox_list rh rb s acc
  = Ok (acc.1.1 ++ [map estimator.pr_keypoints
                      (batch_result self image_array bbox_list rh s).1],
        if rh then acc.1.2 ++ (batch_result self image_array bbox_list rh s).2
        else acc.1.2,
        if rb then acc.2 ++ [map estimator.pr_bbox
                               (batch_result self image_array bbox_list rh s).1]
        else acc.2).
Proof.
  intros Hbs Hs Hlen. destruct acc as [[p h] b].
  unfold estimator.infer_batch, batch_result.
  destruct (lookup_lt_is_Some_2 image_array s Hs) as [img Himg].
  unfold estimator.at_index at 1. rewrite Himg. simpl.
  set (e := min (length image_array) (s + estimator.batch_size self)).
  assert (He : s < e <= length image_array) by (unfold e; lia).
  destruct (lookup_lt_is_Some_2 bbox_list (e - 1) ltac:(lia)) as [last Hlast].
  rewrite Hlast.
  replace (e - s) with (S (e - 1 - s)) by lia.
  rewrite (last_person_results_seq bbox_list (e - 1 - s) s [] last);
    [|by replace (s + (e - 1 - s)) with (e - 1) by lia|lia].
  simpl.
  by destruct (estimator.inference_top_down_pose_model _ _ _ _ _ _ _ _).
Qed.

Lemma infer_batches_general self image_array bbox_list rh rb starts :
  0 < estimator.batch_size self ->
  length image_array <= length bbox_list ->
  Forall (fun s => s < length image_array) starts ->
  forall acc,
    estimator.infer_batches self image_array bbox_list rh rb starts acc
    = Ok (acc.1.1
          ++ map (fun s => map estimator.pr_keypoints
                             (batch_result self image_array bbox_list rh s).1)
               starts,
          if rh then
            acc.1.2
            ++ concat (map (fun s =>
                              (batch_result self image_array bbox_list rh s).2)
                         starts)
          else acc.1.2,
          if rb then
            acc.2
            ++ map (fun s => map estimator.pr_bbox
                               (batch_result self image_array bbox_list rh s).1)
                 starts
          else acc.2).
Proof.
  intros Hbs Hlen. induction 1 as [|s starts Hs Hall IH]; intros acc; simpl.
  - destruct acc as [[p h] b]. simpl. rewrite !app_nil_r.
    by destruct rh, rb.
  - rewrite infer_batch_general by done. simpl.
    rewrite IH. simpl.
    destruct rh, rb; by rewrite <- ?app_assoc.
Qed.

Lemma range_step_below stop step starts :
  estimator.range_step stop step = Ok starts ->
  Forall (fun s => s < stop) starts /\
  length starts = (stop + step - 1) / step.
Proof.
  unfold estimator.range_step.
  destruct (Nat.eqb_spec step 0) as [|Hstep]; [done|].
  intros [= <-]. rewrite length_map, length_seq. split; [|done].
  apply Forall_forall. intros s Hin.
  apply list_elem_of_In, in_map_iff in Hin as (i & <- & Hi).
  apply in_seq in Hi.
  pose proof (Nat.Div0.mul_div_le (stop + step - 1) step) as Hdiv.
  nia.
Qed.

(** X25. With a batch size [b] above 0 and a bbox list that covers every
    frame, [infer_array] asks the model once per batch of [b] frames, with
    the image of the first frame of the batch and the bboxes of its last
    frame, and returns one keypoints entry per batch, not per frame. *)
Theorem infer_array_goes_batch_by_batch self image_array bbox_list rh rb :
  0 < estimator.batch_size self ->
  length image_array <= length bbox_list ->
  exists starts,
    estimator.range_step (length image_array) (estimator.batch_size self)
      = Ok starts /\
    length starts
      = (length image_array + estimator.batch_size self - 1)
        / estimator.batch_size self /\
    estimator.infer_array self image_array bbox_list rh rb
    = Ok (map (fun s => map estimator.pr_keypoints
                          (batch_result self image_array bbox_list rh s).1)
            starts,
          if rh then
            concat (map (fun s =>
                           (batch_result self image_array bbox_list rh s).2)
                      starts)
          else [],
          if rb then
            map (fun s => map estimator.pr_bbox
                            (batch_result self image_array bbox_list rh s).1)
              starts
          else []).
Proof.
  intros Hbs Hlen. unfold estimator.infer_array.
  destruct (estimator.range_step _ _) as [starts|e] eqn:Hrange.
  - destruct (range_step_below _ _ _ Hrange) as [Hbelow Hcount].
    exists starts. split; [done|]. split; [done|]. simpl.
    by rewrite infer_batches_general.
  - unfold estimator.range_step in Hrange.
    destruct (Nat.eqb_spec (estimator.batch_size self) 0); [lia|done].
Qed.

End BatchFacts.

Module batches.

Definition in_pairs : estimator.MMposeTopDownEstimator :=
  {| estimator.pose_model := frames.coco; estimator.batch_size := 2;
     estimator.bbox_thr := Num 0; estimator.use_old_api := false |}.

End batches.

(** The run of X25 on the three images, two by two: the first entry is
    made from the first image and the bboxes of the second, which has
    none. *)
Lemma infer_array_goes_batch_by_batch_witness :
  estimator.infer_array batches.in_pairs frames.images frames.bboxes
    true true
  = Ok ([[]; [toy_mmpose.keypoints_of frames.b3]], [10; 12],
        [[]; [frames.b3]]).
Proof.
  destruct (infer_array_goes_batch_by_batch (MM:=toy_mmpose.corners)
              batches.in_pairs frames.images frames.bboxes true true
              ltac:(vm_compute; lia) ltac:(vm_compute; lia))
    as (starts & Hrange & _ & Hrun).
  vm_compute in Hrange. injection Hrange as <-. exact Hrun.
Defined.
